(** * Ipopt: the non-monotone barrier parameter update

    A shallow embedding of [src/Algorithm/IpNonmonotoneMuUpdate.cpp]
    (class [NonmonotoneMuUpdate]) and the properties of its per-iteration
    entry point [UpdateBarrierParameter].

    Conventions of the embedding.
    - [Number] (a C++ [double]) is a rational: finite values, exact
      arithmetic.  A division whose divisor is zero has no finite value
      (IEEE gives an infinity or a NaN there); it is the outcome
      [DivisionByZero].
    - [Index] (a C++ [int]) is an integer of [Z]; an addition that leaves
      the 32-bit range is undefined in C++ and is the outcome
      [SignedOverflow].
    - Reading the first element of an empty [std::list], or popping it, is
      undefined in C++: the outcome [EmptyList].  Reading a local that was
      never assigned is the outcome [UninitializedRead].
    - [ASSERT_EXCEPTION] throws: the outcome [OPTION_OUT_OF_RANGE].
    - [DBG_ASSERT] compiles to nothing in a release build, and the journal
      ([Jnlst().Printf]) only prints; both are left out.
    - The calls made on the collaborators ([IpData().Set_mu],
      [IpData().Set_tau], [IpData().SetFreeMuMode],
      [IpData().Append_info_string], [linesearch_->Reset]) are recorded, in
      program order, in a trace. *)

From Stdlib Require Import QArith ZArith List String Bool Lia Lqa.
Import ListNotations.
Open Scope Q_scope.

(** ** Numbers *)

Definition Number := Q.
Definition Index := Z.

(** [a < b] on doubles, as a boolean. *)
Definition Qlt_bool (a b : Q) : bool :=
  (Qnum a * QDen b <? Qnum b * QDen a)%Z.

(** Modelled from the spec: the templates [Max] and [Min] are declared in
    IpUtils.hpp, which is not part of the sources at hand; the spec reads
    them as the maximum and the minimum of their two arguments
    ([Compute_tau] is [max(tau_min, min(1 - mu, tau_max))]).  [Max] is
    taken as [(a > b) ? a : b]. *)
Definition Max (a b : Number) : Number := if Qlt_bool b a then a else b.

(** Modelled from the spec: [Min], the minimum of its two arguments, missing
    from the sources like [Max]; [(a < b) ? a : b]. *)
Definition Min (a b : Number) : Number := if Qlt_bool a b then a else b.

Definition INT_MIN : Z := (-2147483648)%Z.
Definition INT_MAX : Z := 2147483647%Z.

(** ** Outcomes that are not a value *)

Inductive Exception : Type :=
| OPTION_OUT_OF_RANGE (option_name : string) (msg : string)
| DivisionByZero
| SignedOverflow
| EmptyList
| UninitializedRead.

Inductive result (A : Type) : Type :=
| Ok (a : A)
| Err (e : Exception).
Arguments Ok {A} a.
Arguments Err {A} e.

Definition bindR {A B} (r : result A) (k : A -> result B) : result B :=
  match r with
  | Ok a => k a
  | Err e => Err e
  end.

Notation "x <~ r ;; k" := (bindR r (fun x => k))
  (at level 61, r at next level, right associativity).

(** Addition of two [Index] values. *)
Definition Index_add (a b : Index) : result Index :=
  let c := (a + b)%Z in
  if ((INT_MIN <=? c) && (c <=? INT_MAX))%Z then Ok c else Err SignedOverflow.

(** [a /= (Number)n]. *)
Definition Number_div (a : Number) (n : Index) : result Number :=
  if (n =? 0)%Z then Err DivisionByZero else Ok (a / inject_Z n).

(** [a / b] with a [Number] as the divisor. *)
Definition Number_quot (a b : Number) : result Number :=
  if Qeq_bool b 0 then Err DivisionByZero else Ok (a / b).

(** ** The collaborators *)

(** The C library's [pow] and the class [Filter] (IpFilter.hpp) are used by
    the source and not defined in it: they are an interface here. *)
Class Externals : Type := {
  pow : Number -> Number -> Number;
  Filter : Type;
  Acceptable : Filter -> Number -> Number -> bool;
  AddEntry : Filter -> Number -> Number -> Index -> Filter
}.

(** What one outer iteration offers to read: the dimensions of the current
    iterate's vectors ([IpData().curr_x()->Dim()], ...), the quantities of
    [IpCq()], the tolerance and the iteration count of [IpData()], and what
    the two oracles answer when asked ([fix_mu_oracle_] may be NULL). *)
Record Iterate : Type := {
  dim_x : Index; dim_s : Index;
  dim_y_c : Index; dim_y_d : Index;
  dim_z_L : Index; dim_z_U : Index;
  dim_v_L : Index; dim_v_U : Index;
  curr_dual_infeasibility : Number;
  curr_primal_infeasibility : Number;
  curr_complementarity : Number;
  curr_f : Number;
  curr_constraint_violation : Number;
  curr_barrier_error : Number;
  curr_avrg_compl : Number;
  epsilon_tol : Number;
  iter_count : Index;
  free_mu_oracle_CalculateMu : Number;
  fix_mu_oracle_CalculateMu : option Number
}.

(** The calls made on [IpData()] and on the line search. *)
Inductive Event : Type :=
| Set_mu (mu : Number)
| Set_tau (tau : Number)
| SetFreeMuMode (free : bool)
| Append_info_string (s : string)
| Reset.

(** The members that the options set, once, in [InitializeImpl]. *)
Record Config : Type := {
  mu_max_ : Number;
  mu_min_ : Number;
  tau_min_ : Number;
  tau_max_ : Number;
  mu_safeguard_exp_ : Number;
  mu_safeguard_factor_ : Number;
  refs_red_fact_ : Number;
  num_refs_max_ : Index;
  mu_never_fix_ : bool;
  adaptive_globalization_ : Index;
  kappa_epsilon_ : Number;
  kappa_mu_ : Number;
  theta_mu_ : Number
}.

Section Model.
Context {Ext : Externals}.

(** The members that change during the solve, the part of [IpData()] this
    class reads back ([curr_mu], [FreeMuMode]) or writes, and the trace. *)
Record State : Type := {
  init_dual_inf_ : Number;
  init_primal_inf_ : Number;
  refs_vals_ : list Number;
  check_if_no_bounds_ : bool;
  no_bounds_ : bool;
  filter_ : Filter;
  curr_mu : Number;
  curr_tau : Number;
  FreeMuMode : bool;
  info_string : string;
  trace : list Event
}.

Definition set_init_dual_inf (v : Number) (s : State) : State :=
  Build_State v (init_primal_inf_ s) (refs_vals_ s) (check_if_no_bounds_ s)
    (no_bounds_ s) (filter_ s) (curr_mu s) (curr_tau s) (FreeMuMode s)
    (info_string s) (trace s).
Definition set_init_primal_inf (v : Number) (s : State) : State :=
  Build_State (init_dual_inf_ s) v (refs_vals_ s) (check_if_no_bounds_ s)
    (no_bounds_ s) (filter_ s) (curr_mu s) (curr_tau s) (FreeMuMode s)
    (info_string s) (trace s).
Definition set_refs_vals (v : list Number) (s : State) : State :=
  Build_State (init_dual_inf_ s) (init_primal_inf_ s) v (check_if_no_bounds_ s)
    (no_bounds_ s) (filter_ s) (curr_mu s) (curr_tau s) (FreeMuMode s)
    (info_string s) (trace s).
Definition set_check_if_no_bounds (v : bool) (s : State) : State :=
  Build_State (init_dual_inf_ s) (init_primal_inf_ s) (refs_vals_ s) v
    (no_bounds_ s) (filter_ s) (curr_mu s) (curr_tau s) (FreeMuMode s)
    (info_string s) (trace s).
Definition set_no_bounds (v : bool) (s : State) : State :=
  Build_State (init_dual_inf_ s) (init_primal_inf_ s) (refs_vals_ s)
    (check_if_no_bounds_ s) v (filter_ s) (curr_mu s) (curr_tau s)
    (FreeMuMode s) (info_string s) (trace s).
Definition set_filter (v : Filter) (s : State) : State :=
  Build_State (init_dual_inf_ s) (init_primal_inf_ s) (refs_vals_ s)
    (check_if_no_bounds_ s) (no_bounds_ s) v (curr_mu s) (curr_tau s)
    (FreeMuMode s) (info_string s) (trace s).

(** Modelled from the spec: the classes of [IpData()] and of the line search
    are missing from the sources; the spec gives the class write access to
    set mu, tau and the free/fixed mode flag and to append to an info
    string, and read access to the same data.  One call on a collaborator:
    its effect on the shared data and its record in the trace. *)
Definition emit (e : Event) (s : State) : State :=
  let t := (trace s ++ [e])%list in
  match e with
  | Set_mu mu =>
      Build_State (init_dual_inf_ s) (init_primal_inf_ s) (refs_vals_ s)
        (check_if_no_bounds_ s) (no_bounds_ s) (filter_ s) mu (curr_tau s)
        (FreeMuMode s) (info_string s) t
  | Set_tau tau =>
      Build_State (init_dual_inf_ s) (init_primal_inf_ s) (refs_vals_ s)
        (check_if_no_bounds_ s) (no_bounds_ s) (filter_ s) (curr_mu s) tau
        (FreeMuMode s) (info_string s) t
  | SetFreeMuMode free =>
      Build_State (init_dual_inf_ s) (init_primal_inf_ s) (refs_vals_ s)
        (check_if_no_bounds_ s) (no_bounds_ s) (filter_ s) (curr_mu s)
        (curr_tau s) free (info_string s) t
  | Append_info_string a =>
      Build_State (init_dual_inf_ s) (init_primal_inf_ s) (refs_vals_ s)
        (check_if_no_bounds_ s) (no_bounds_ s) (filter_ s) (curr_mu s)
        (curr_tau s) (FreeMuMode s) (info_string s ++ a)%string t
  | Reset =>
      Build_State (init_dual_inf_ s) (init_primal_inf_ s) (refs_vals_ s)
        (check_if_no_bounds_ s) (no_bounds_ s) (filter_ s) (curr_mu s)
        (curr_tau s) (FreeMuMode s) (info_string s) t
  end.

(** ** The monad of the member functions: state and exceptions *)

Definition M (A : Type) : Type := State -> result (A * State).

Definition ret {A} (a : A) : M A := fun s => Ok (a, s).
Definition bind {A B} (m : M A) (k : A -> M B) : M B :=
  fun s => match m s with
           | Ok (a, s') => k a s'
           | Err e => Err e
           end.
Definition gets {A} (f : State -> A) : M A := fun s => Ok (f s, s).
Definition modify (f : State -> State) : M unit := fun s => Ok (tt, f s).
Definition lift {A} (r : result A) : M A :=
  fun s => match r with Ok a => Ok (a, s) | Err e => Err e end.
Definition call (e : Event) : M unit := modify (emit e).

End Model.

Notation "x <- m ;; k" := (bind m (fun x => k))
  (at level 61, m at next level, right associativity).
Notation "m ;; k" := (bind m (fun _ => k))
  (at level 61, right associativity).

Section MemberFunctions.
Context {Ext : Externals}.

(** ** [Compute_tau] *)

Definition Compute_tau (c : Config) (mu : Number) : Number :=
  Max (tau_min_ c) (Min (1 - mu) (tau_max_ c)).

(** ** [curr_norm_pd_system] *)

Definition curr_norm_pd_system (it : Iterate) : result Number :=
  let dual_inf := curr_dual_infeasibility it in
  let primal_inf := curr_primal_infeasibility it in
  let complty := curr_complementarity it in
  n_dual <~ Index_add (dim_x it) (dim_s it) ;;
  dual_inf <~ Number_div dual_inf n_dual ;;
  n_pri <~ Index_add (dim_y_c it) (dim_y_d it) ;;
  primal_inf <~ (if (0 <? n_pri)%Z then Number_div primal_inf n_pri
                 else Ok primal_inf) ;;
  n1 <~ Index_add (dim_z_L it) (dim_z_U it) ;;
  n2 <~ Index_add n1 (dim_v_L it) ;;
  n_comp <~ Index_add n2 (dim_v_U it) ;;
  complty <~ (if (0 <? n_comp)%Z then Number_div complty n_comp
              else Ok complty) ;;
  let norm_pd_system := primal_inf + dual_inf + complty in
  Ok norm_pd_system.

(** ** [min_ref_val] and [max_ref_val] *)

Definition min_ref_val (refs_vals : list Number) : result Number :=
  match refs_vals with
  | [] => Err EmptyList
  | first :: rest => Ok (fold_left (fun min_ref v => Min min_ref v) rest first)
  end.

Definition max_ref_val (refs_vals : list Number) : result Number :=
  match refs_vals with
  | [] => Err EmptyList
  | first :: rest => Ok (fold_left (fun max_ref v => Max max_ref v) rest first)
  end.

(** ** [CheckSufficientProgress] *)

(** The loop of case 1: [retval] becomes true at every reference value
    that the current error undercuts, and is never set back. *)
Definition refs_loop (c : Config) (curr_error : Number)
    (refs_vals : list Number) (retval : bool) : bool :=
  fold_left
    (fun retval ref =>
       if Qle_bool curr_error (refs_red_fact_ c * ref) then true else retval)
    refs_vals retval.

Definition CheckSufficientProgress (c : Config) (it : Iterate) (s : State)
  : result bool :=
  if mu_never_fix_ c then Ok true
  else
    let retval := true in
    if (adaptive_globalization_ c =? 1)%Z then
      let num_refs := Z.of_nat (List.length (refs_vals_ s)) in
      if (num_refs >=? num_refs_max_ c)%Z then
        let retval := false in
        curr_error <~ curr_norm_pd_system it ;;
        Ok (refs_loop c curr_error (refs_vals_ s) retval)
      else Ok retval
    else if (adaptive_globalization_ c =? 2)%Z then
      Ok (Acceptable (filter_ s) (curr_f it) (curr_constraint_violation it))
    else Ok retval.

(** ** [RememberCurrentPointAsAccepted] *)

Definition pop_front (l : list Number) : result (list Number) :=
  match l with
  | [] => Err EmptyList
  | _ :: rest => Ok rest
  end.

Definition RememberCurrentPointAsAccepted (c : Config) (it : Iterate)
  : M unit :=
  if (adaptive_globalization_ c =? 1)%Z then
    curr_error <- lift (curr_norm_pd_system it) ;;
    refs <- gets refs_vals_ ;;
    let num_refs := Z.of_nat (List.length refs) in
    refs <- (if (num_refs >=? num_refs_max_ c)%Z then lift (pop_front refs)
             else ret refs) ;;
    modify (set_refs_vals (refs ++ [curr_error])%list)
  else if (adaptive_globalization_ c =? 2)%Z then
    let theta := curr_constraint_violation it in
    let param := 1e-5 in
    f <- gets filter_ ;;
    modify (set_filter
              (AddEntry f (curr_f it - param * theta)
                 (curr_constraint_violation it - param * theta)
                 (iter_count it)))
  else ret tt.

(** ** [lower_mu_safeguard] *)

Definition lower_mu_safeguard (c : Config) (it : Iterate) : M Number :=
  let dual_inf := curr_dual_infeasibility it in
  let primal_inf := curr_primal_infeasibility it in
  n_dual <- lift (Index_add (dim_x it) (dim_s it)) ;;
  dual_inf <- lift (Number_div dual_inf n_dual) ;;
  n_pri <- lift (Index_add (dim_y_c it) (dim_y_d it)) ;;
  primal_inf <- lift (if (0 <? n_pri)%Z then Number_div primal_inf n_pri
                      else Ok primal_inf) ;;
  init_dual_inf <- gets init_dual_inf_ ;;
  (if Qlt_bool init_dual_inf 0 then modify (set_init_dual_inf (Max 1 dual_inf))
   else ret tt) ;;
  init_primal_inf <- gets init_primal_inf_ ;;
  (if Qlt_bool init_primal_inf 0
   then modify (set_init_primal_inf (Max 1 primal_inf))
   else ret tt) ;;
  init_dual_inf <- gets init_dual_inf_ ;;
  init_primal_inf <- gets init_primal_inf_ ;;
  dual_ratio <- lift (Number_quot dual_inf init_dual_inf) ;;
  primal_ratio <- lift (Number_quot primal_inf init_primal_inf) ;;
  let lower_mu_safeguard :=
    Max (mu_safeguard_factor_ c * dual_ratio)
        (mu_safeguard_factor_ c * primal_ratio) in
  if (adaptive_globalization_ c =? 1)%Z then
    refs <- gets refs_vals_ ;;
    min_ref <- lift (min_ref_val refs) ;;
    ret (Min lower_mu_safeguard min_ref)
  else ret lower_mu_safeguard.

(** ** [NewFixedMu] *)

Definition NewFixedMu (c : Config) (it : Iterate) : M Number :=
  max_ref <- (if (adaptive_globalization_ c =? 1)%Z then
                refs <- gets refs_vals_ ;; lift (max_ref_val refs)
              else if (adaptive_globalization_ c =? 2)%Z then ret 1e20
              else lift (Err UninitializedRead)) ;;
  let new_mu :=
    match fix_mu_oracle_CalculateMu it with
    | Some mu => mu
    | None => curr_avrg_compl it
    end in
  safeguard <- lower_mu_safeguard c it ;;
  let new_mu := Max new_mu safeguard in
  let new_mu := Min new_mu (0.1 * max_ref) in
  let new_mu := Max new_mu (mu_min_ c) in
  let new_mu := Min new_mu (mu_max_ c) in
  ret new_mu.

(** ** [UpdateBarrierParameter] *)

Definition n_bounds (it : Iterate) : result Index :=
  n1 <~ Index_add (dim_z_L it) (dim_z_U it) ;;
  n2 <~ Index_add n1 (dim_v_L it) ;;
  Index_add n2 (dim_v_U it).

(** The function body is one sequence of three blocks; each block is a
    definition of its own here.  First block: the test for a problem without
    bounds, made at the first call only. *)
Definition check_no_bounds (c : Config) (it : Iterate) : M unit :=
  checked <- gets check_if_no_bounds_ ;;
  if negb checked then
    n_bounds <- lift (n_bounds it) ;;
    (if (n_bounds =? 0)%Z then
       modify (set_no_bounds true) ;;
       call (Set_mu (mu_min_ c)) ;;
       call (Set_tau (tau_min_ c))
     else ret tt) ;;
    modify (set_check_if_no_bounds true)
  else ret tt.

(** Second block: [if (!IpData().FreeMuMode()) { ... } else { ... }], the
    switch between the fixed and the free mode. *)
Definition mode_transition (c : Config) (it : Iterate) : M unit :=
  free <- gets FreeMuMode ;;
  if negb free then
    sufficient_progress <- (fun s => lift (CheckSufficientProgress c it s) s) ;;
    if sufficient_progress then
      call (SetFreeMuMode true) ;;
      RememberCurrentPointAsAccepted c it
    else
      let sub_problem_error := curr_barrier_error it in
      mu <- gets curr_mu ;;
      if Qle_bool sub_problem_error (kappa_epsilon_ c * mu) then
        let eps_tol := epsilon_tol it in
        let new_mu := Min (kappa_mu_ c * mu) (pow mu (theta_mu_ c)) in
        let new_mu := Max new_mu (eps_tol / 10) in
        let new_tau := Compute_tau c mu in
        call (Set_mu new_mu) ;;
        call (Set_tau new_tau) ;;
        call Reset
      else ret tt
  else
    sufficient_progress <- (fun s => lift (CheckSufficientProgress c it s) s) ;;
    if sufficient_progress then
      RememberCurrentPointAsAccepted c it
    else
      call (SetFreeMuMode false) ;;
      mu <- NewFixedMu c it ;;
      let tau := Compute_tau c mu in
      call (Set_mu mu) ;;
      call (Set_tau tau) ;;
      call Reset.

(** Third block: [if (IpData().FreeMuMode()) { ... } else { ... }], the new
    barrier parameter of the free mode. *)
Definition free_mu_phase (c : Config) (it : Iterate) : M unit :=
  free <- gets FreeMuMode ;;
  if free then
    let mu := free_mu_oracle_CalculateMu it in
    let mu := Max mu (mu_min_ c) in
    mu_lower_safe <- lower_mu_safeguard c it ;;
    mu <- (if Qlt_bool mu mu_lower_safe then
             call (Append_info_string "m") ;;
             ret mu_lower_safe
           else ret mu) ;;
    let mu := Min mu (mu_max_ c) in
    let tau := Compute_tau c mu in
    call (Set_mu mu) ;;
    call (Set_tau tau) ;;
    call Reset
  else call (Append_info_string "F").

Definition UpdateBarrierParameter (c : Config) (it : Iterate) : M unit :=
  check_no_bounds c it ;;
  no_bounds <- gets no_bounds_ ;;
  if no_bounds then ret tt
  else
    mode_transition c it ;;
    free_mu_phase c it.

(** ** [InitializeImpl] *)

(** The options, as the two queries the source makes of them.  A query
    answers [None] when the option was not supplied.  (The prefix is the same
    at every query and is left out.) *)
Record OptionsList : Type := {
  GetNumericValue : string -> option Number;
  GetIntegerValue : string -> option Index
}.

(** [ASSERT_EXCEPTION(cond, OptionsList::OPTION_OUT_OF_RANGE, msg)], where
    [msg] is the text [Option <option_name>: <text>], the name in quotes. *)
Definition ASSERT_EXCEPTION (cond : bool) (option_name text : string)
  : result unit :=
  if cond then Ok tt else Err (OPTION_OUT_OF_RANGE option_name text).

(** [eps_tol] is [IpData().epsilon_tol()]; [free_init] is what
    [free_mu_oracle_->Initialize] returns, [fix_init] what
    [fix_mu_oracle_->Initialize] returns, [None] when that oracle is NULL.
    The result is the returned flag and the object as the call leaves
    it. *)
Definition InitializeImpl (options : OptionsList) (eps_tol : Number)
    (free_init : bool) (fix_init : option bool) (self : Config * State)
  : result (bool * (Config * State)) :=
  let c0 := fst self in
  let s0 := snd self in
  mu_max <~
    match GetNumericValue options "mu_max" with
    | Some value =>
        _ <~ ASSERT_EXCEPTION (Qlt_bool 0 value) "mu_max"
               "This value must be larger than 0." ;;
        Ok value
    | None => Ok 1e10
    end ;;
  mu_min <~
    match GetNumericValue options "mu_min" with
    | Some value =>
        _ <~ ASSERT_EXCEPTION (Qlt_bool 0 value && Qlt_bool value mu_max)
               "mu_min"
               "This value must be larger than 0 and less than mu_max." ;;
        Ok value
    | None => Ok (0.1 * eps_tol)
    end ;;
  tau_min <~
    match GetNumericValue options "tau_min" with
    | Some value =>
        _ <~ ASSERT_EXCEPTION (Qlt_bool 0 value && Qlt_bool value 1)
               "tau_min" "This value must be between 0 and 1." ;;
        Ok value
    | None => Ok 0.99
    end ;;
  tau_max <~
    match GetNumericValue options "tau_max" with
    | Some value =>
        _ <~ ASSERT_EXCEPTION (Qlt_bool 0 value && Qle_bool value 1)
               "tau_max" "This value must be between 0 and 1." ;;
        Ok value
    | None => Ok tau_min
    end ;;
  mu_safeguard_exp <~
    match GetNumericValue options "mu_safeguard_exp" with
    | Some value =>
        _ <~ ASSERT_EXCEPTION (Qle_bool 0 value) "mu_safeguard_exp"
               "This value must be non-negative." ;;
        Ok value
    | None => Ok 0
    end ;;
  mu_safeguard_factor <~
    match GetNumericValue options "mu_safeguard_factor" with
    | Some value =>
        _ <~ ASSERT_EXCEPTION (Qle_bool 0 value) "mu_safeguard_factor"
               "This value must be non-negative." ;;
        Ok value
    | None => Ok 0
    end ;;
  refs_red_fact <~
    match GetNumericValue options "nonmonotone_mu_refs_redfact" with
    | Some value =>
        _ <~ ASSERT_EXCEPTION (Qlt_bool 0 value && Qlt_bool value 1)
               "nonmonotone_mu_refs_redfact"
               "This value must be between 0 and 1." ;;
        Ok value
    | None => Ok 0.9999
    end ;;
  num_refs_max <~
    match GetIntegerValue options "nonmonotone_mu_max_refs" with
    | Some ivalue =>
        _ <~ ASSERT_EXCEPTION (ivalue >=? 0)%Z "nonmonotone_mu_max_refs"
               "This value must be non-negative." ;;
        Ok ivalue
    | None => Ok 4%Z
    end ;;
  let mu_never_fix :=
    match GetIntegerValue options "mu_never_fix" with
    | Some ivalue => negb (ivalue =? 0)%Z
    | None => false
    end in
  let adaptive_globalization :=
    match GetIntegerValue options "adaptive_globalization" with
    | Some ivalue => ivalue
    | None => 1%Z
    end in
  let c1 :=
    Build_Config mu_max mu_min tau_min tau_max mu_safeguard_exp
      mu_safeguard_factor refs_red_fact num_refs_max mu_never_fix
      adaptive_globalization (kappa_epsilon_ c0) (kappa_mu_ c0)
      (theta_mu_ c0) in
  let retvalue := free_init in
  if negb retvalue then Ok (retvalue, (c1, s0))
  else
    match fix_init with
    | Some false => Ok (false, (c1, s0))
    | _ =>
        kappa_epsilon <~
          match GetNumericValue options "kappa_epsilon" with
          | Some value =>
              _ <~ ASSERT_EXCEPTION (Qlt_bool 0 value) "kappa_epsilon"
                     "This value must be larger than 0." ;;
              Ok value
          | None => Ok 10.0
          end ;;
        kappa_mu <~
          match GetNumericValue options "kappa_mu" with
          | Some value =>
              _ <~ ASSERT_EXCEPTION (Qlt_bool 0 value && Qlt_bool value 1)
                     "kappa_mu" "This value must be between 0 and 1." ;;
              Ok value
          | None => Ok 0.2
          end ;;
        theta_mu <~
          match GetNumericValue options "theta_mu" with
          | Some value =>
              _ <~ ASSERT_EXCEPTION (Qlt_bool 1 value && Qlt_bool value 2)
                     "theta_mu" "This value must be between 1 and 2." ;;
              Ok value
          | None => Ok 1.5
          end ;;
        let c :=
          Build_Config mu_max mu_min tau_min tau_max mu_safeguard_exp
            mu_safeguard_factor refs_red_fact num_refs_max mu_never_fix
            adaptive_globalization kappa_epsilon kappa_mu theta_mu in
        let s :=
          emit (SetFreeMuMode true)
            (Build_State (-1) (-1) [] false false (filter_ s0) (curr_mu s0)
               (curr_tau s0) (FreeMuMode s0) (info_string s0) (trace s0)) in
        Ok (true, (c, s))
    end.

End MemberFunctions.

(** ** Instances for the examples *)

(** Modelled from the spec: the class [Filter] is missing from the sources;
    the spec has a filter as a set of (objective, constraint violation,
    iteration) entries, changed by insertion only, where a candidate is
    acceptable iff no entry dominates it, and an entry [(f', theta')]
    dominates the candidate [(f, theta)] when [f >= f'] and
    [theta >= theta']. *)
Definition list_filter_Acceptable (entries : list (Number * Number * Index))
    (f theta : Number) : bool :=
  forallb (fun e => negb (Qle_bool (fst (fst e)) f && Qle_bool (snd (fst e)) theta))
    entries.

(** Modelled from the spec: the insertion of an entry into the filter; no
    entry is removed. *)
Definition list_filter_AddEntry (entries : list (Number * Number * Index))
    (f theta : Number) (iteration : Index) : list (Number * Number * Index) :=
  (f, theta, iteration) :: entries.

(** The examples raise only the number 1 to a power, and [pow(1, y)] is 1:
    this instance answers with its base. *)
Definition example_Externals : Externals := {|
  pow := fun x _ => x;
  Filter := list (Number * Number * Index);
  Acceptable := list_filter_Acceptable;
  AddEntry := list_filter_AddEntry
|}.

(** ** Facts on numbers *)

Lemma Qlt_bool_spec (a b : Q) : reflect (a < b) (Qlt_bool a b).
Proof.
  unfold Qlt_bool, Qlt.
  destruct (Qnum a * QDen b <? Qnum b * QDen a)%Z eqn:E; constructor.
  - now apply Z.ltb_lt.
  - now apply Z.ltb_ge, Z.le_ngt in E.
Qed.

Lemma Qle_bool_spec (a b : Q) : reflect (a <= b) (Qle_bool a b).
Proof.
  destruct (Qle_bool a b) eqn:E; constructor.
  - now apply Qle_bool_iff.
  - intro H. apply Qle_bool_iff in H. congruence.
Qed.

Ltac maxmin :=
  unfold Max, Min in *;
  repeat match goal with
         | |- context [Qlt_bool ?a ?b] => destruct (Qlt_bool_spec a b)
         | H : context [Qlt_bool ?a ?b] |- _ => destruct (Qlt_bool_spec a b)
         end;
  try lra.

Lemma Max_ge_l (a b : Number) : a <= Max a b.
Proof. maxmin. Qed.

Lemma Max_ge_r (a b : Number) : b <= Max a b.
Proof. maxmin. Qed.

Lemma Min_le_l (a b : Number) : Min a b <= a.
Proof. maxmin. Qed.

Lemma Min_le_r (a b : Number) : Min a b <= b.
Proof. maxmin. Qed.

Lemma Min_glb (a b x : Number) : x <= a -> x <= b -> x <= Min a b.
Proof. intros; maxmin. Qed.

Lemma Max_lub (a b x : Number) : a <= x -> b <= x -> Max a b <= x.
Proof. intros; maxmin. Qed.

Lemma Max_1_not_negative (x : Number) : Qlt_bool (Max 1 x) 0 = false.
Proof.
  destruct (Qlt_bool_spec (Max 1 x) 0) as [H|H]; [|reflexivity].
  pose proof (Max_ge_l 1 x). lra.
Qed.

(** ** Facts on lists *)

Lemma skipn_length_app {A} (l evs : list A) :
  skipn (List.length l) (l ++ evs) = evs.
Proof. induction l; simpl; auto. Qed.

Lemma tl_skipn {A} (k : nat) (l : list A) : tl (skipn k l) = skipn (S k) l.
Proof.
  revert l. induction k as [|k IH]; intros [|x l]; simpl; auto.
Qed.

Section Properties.
Context {Ext : Externals}.

(** ** The averaged norms *)

(** The averaged dual infeasibility, as [curr_norm_pd_system] and
    [lower_mu_safeguard] both compute it. *)
Definition avrg_dual_inf (it : Iterate) : result Number :=
  n_dual <~ Index_add (dim_x it) (dim_s it) ;;
  Number_div (curr_dual_infeasibility it) n_dual.

(** The averaged primal infeasibility, likewise. *)
Definition avrg_primal_inf (it : Iterate) : result Number :=
  n_pri <~ Index_add (dim_y_c it) (dim_y_d it) ;;
  if (0 <? n_pri)%Z then Number_div (curr_primal_infeasibility it) n_pri
  else Ok (curr_primal_infeasibility it).

Lemma Number_div_guarded (a : Number) (n : Index) :
  (0 < n)%Z -> Number_div a n = Ok (a / inject_Z n).
Proof.
  intros H. unfold Number_div.
  destruct (Z.eqb_spec n 0); [lia | reflexivity].
Qed.



(** ** [CheckSufficientProgress] under selector 1 *)

Lemma refs_loop_existsb (c : Config) (e : Number) (refs : list Number)
    (retval : bool) :
  refs_loop c e refs retval =
  retval || existsb (fun r => Qle_bool e (refs_red_fact_ c * r)) refs.
Proof.
  unfold refs_loop. revert retval.
  induction refs as [|r refs IH]; intros retval; simpl.
  - now rewrite orb_false_r.
  - rewrite IH. destruct (Qle_bool e (refs_red_fact_ c * r)); simpl.
    + now rewrite orb_true_r.
    + reflexivity.
Qed.

(** C3: under selector 1 with [mu_never_fix] false, the check answers true
    while the history holds fewer than [num_refs_max] values; with a full
    history, and a current residual norm [e], it answers true iff [e] is at
    most [refs_red_fact] times some stored reference value. *)
Theorem CheckSufficientProgress_selector_1 (c : Config) (it : Iterate)
    (s : State) :
  mu_never_fix_ c = false ->
  adaptive_globalization_ c = 1%Z ->
  ((Z.of_nat (List.length (refs_vals_ s)) < num_refs_max_ c)%Z ->
   CheckSufficientProgress c it s = Ok true) /\
  (forall e : Number,
     (num_refs_max_ c <= Z.of_nat (List.length (refs_vals_ s)))%Z ->
     curr_norm_pd_system it = Ok e ->
     exists b : bool,
       CheckSufficientProgress c it s = Ok b /\
       (b = true <->
        exists r, In r (refs_vals_ s) /\ e <= refs_red_fact_ c * r)).
Proof.
  intros Hfix Hsel. unfold CheckSufficientProgress.
  rewrite Hfix, Hsel. simpl. split.
  - intros Hlen.
    destruct (Z.geb_spec (Z.of_nat (List.length (refs_vals_ s)))
                (num_refs_max_ c)); [lia | reflexivity].
  - intros e Hlen He.
    destruct (Z.geb_spec (Z.of_nat (List.length (refs_vals_ s)))
                (num_refs_max_ c)); [|lia].
    rewrite He. simpl. eexists. split; [reflexivity|].
    rewrite refs_loop_existsb. simpl. rewrite existsb_exists.
    split; intros (r & Hin & Hr); exists r; split; auto.
    + now apply Qle_bool_iff.
    + now apply Qle_bool_iff.
Qed.

(** ** [lower_mu_safeguard]: what it returns and what it changes *)

(** The two baselines after a call that observed the averages [d], [p]. *)
Definition latch (d p : Number) (s : State) : State :=
  let s1 := if Qlt_bool (init_dual_inf_ s) 0
            then set_init_dual_inf (Max 1 d) s else s in
  if Qlt_bool (init_primal_inf_ s1) 0
  then set_init_primal_inf (Max 1 p) s1 else s1.

(** The safeguard before the cap of selector 1. *)
Definition uncapped_safeguard (c : Config) (d p : Number) (s : State)
  : result Number :=
  dual_ratio <~ Number_quot d (init_dual_inf_ s) ;;
  primal_ratio <~ Number_quot p (init_primal_inf_ s) ;;
  Ok (Max (mu_safeguard_factor_ c * dual_ratio)
          (mu_safeguard_factor_ c * primal_ratio)).

Lemma lower_mu_safeguard_unfold (c : Config) (it : Iterate) (s : State) :
  lower_mu_safeguard c it s =
  (d <~ avrg_dual_inf it ;;
   p <~ avrg_primal_inf it ;;
   v <~ uncapped_safeguard c d p (latch d p s) ;;
   if (adaptive_globalization_ c =? 1)%Z then
     min_ref <~ min_ref_val (refs_vals_ s) ;;
     Ok (Min v min_ref, latch d p s)
   else Ok (v, latch d p s)).
Proof.
  unfold lower_mu_safeguard, avrg_dual_inf, avrg_primal_inf,
    uncapped_safeguard, latch, bind, lift, bindR, gets, modify, ret.
  destruct (Index_add (dim_x it) (dim_s it)) as [n_dual|]; [|reflexivity].
  destruct (Number_div (curr_dual_infeasibility it) n_dual) as [d|];
    [|reflexivity].
  destruct (Index_add (dim_y_c it) (dim_y_d it)) as [n_pri|]; [|reflexivity].
  destruct (if (0 <? n_pri)%Z
            then Number_div (curr_primal_infeasibility it) n_pri
            else Ok (curr_primal_infeasibility it)) as [p|]; [|reflexivity].
  destruct s as [id ip refs chk nb fl mu tau free info tr]; simpl.
  destruct (Qlt_bool id 0); simpl;
    destruct (Qlt_bool ip 0); simpl;
    match goal with
    | |- context [Number_quot d ?x] => destruct (Number_quot d x); simpl
    end; try reflexivity;
    match goal with
    | |- context [Number_quot p ?x] => destruct (Number_quot p x); simpl
    end; try reflexivity;
    destruct (adaptive_globalization_ c =? 1)%Z; try reflexivity;
    unfold set_init_dual_inf, set_init_primal_inf; simpl;
    destruct (min_ref_val refs); reflexivity.
Qed.

Lemma latch_frame (d p : Number) (s : State) :
  refs_vals_ (latch d p s) = refs_vals_ s /\
  check_if_no_bounds_ (latch d p s) = check_if_no_bounds_ s /\
  no_bounds_ (latch d p s) = no_bounds_ s /\
  filter_ (latch d p s) = filter_ s /\
  curr_mu (latch d p s) = curr_mu s /\
  curr_tau (latch d p s) = curr_tau s /\
  FreeMuMode (latch d p s) = FreeMuMode s /\
  info_string (latch d p s) = info_string s /\
  trace (latch d p s) = trace s.
Proof.
  unfold latch. destruct s; simpl.
  destruct (Qlt_bool _ 0); simpl; destruct (Qlt_bool _ 0); simpl; repeat split.
Qed.

Lemma lower_mu_safeguard_inv (c : Config) (it : Iterate) (s s' : State)
    (v : Number) :
  lower_mu_safeguard c it s = Ok (v, s') ->
  exists d p, avrg_dual_inf it = Ok d /\ avrg_primal_inf it = Ok p /\
              s' = latch d p s.
Proof.
  rewrite lower_mu_safeguard_unfold. unfold bindR.
  destruct (avrg_dual_inf it) as [d|]; [|discriminate].
  destruct (avrg_primal_inf it) as [p|]; [|discriminate].
  destruct (uncapped_safeguard c d p (latch d p s)); [|discriminate].
  destruct (adaptive_globalization_ c =? 1)%Z.
  - destruct (min_ref_val (refs_vals_ s)); [|discriminate].
    intros H; inversion H; eauto.
  - intros H; inversion H; eauto.
Qed.

Lemma Number_quot_latched (a b : Number) :
  1 <= b -> Number_quot a b = Ok (a / b).
Proof.
  intros H. unfold Number_quot.
  destruct (Qeq_bool b 0) eqn:E; [|reflexivity].
  apply Qeq_bool_iff in E. lra.
Qed.

Lemma latch_baselines (d p : Number) (s : State) :
  (init_dual_inf_ s < 0 -> init_dual_inf_ (latch d p s) = Max 1 d) /\
  (1 <= init_dual_inf_ s ->
   init_dual_inf_ (latch d p s) = init_dual_inf_ s) /\
  (init_primal_inf_ s < 0 -> init_primal_inf_ (latch d p s) = Max 1 p) /\
  (1 <= init_primal_inf_ s ->
   init_primal_inf_ (latch d p s) = init_primal_inf_ s).
Proof.
  unfold latch. destruct s as [id ip refs chk nb fl mu tau free info tr].
  simpl.
  destruct (Qlt_bool_spec id 0); simpl; destruct (Qlt_bool_spec ip 0); simpl;
    repeat split; intros; try reflexivity; lra.
Qed.

Lemma min_ref_val_defined (refs : list Number) :
  refs <> [] -> exists m, min_ref_val refs = Ok m.
Proof. destruct refs; [congruence | simpl; eauto]. Qed.

(** A baseline is unset (negative, as [InitializeImpl] leaves it) or
    latched (at least 1, as [Max 1 _] makes it). *)
Definition baselines_ok (s : State) : Prop :=
  (init_dual_inf_ s < 0 \/ 1 <= init_dual_inf_ s) /\
  (init_primal_inf_ s < 0 \/ 1 <= init_primal_inf_ s).

Lemma latch_latched (d p : Number) (s : State) :
  baselines_ok s ->
  1 <= init_dual_inf_ (latch d p s) /\ 1 <= init_primal_inf_ (latch d p s).
Proof.
  intros [Hid Hip].
  destruct (latch_baselines d p s) as (D1 & D2 & P1 & P2). split.
  - destruct Hid as [H|H].
    + rewrite (D1 H). apply Max_ge_l.
    + now rewrite (D2 H).
  - destruct Hip as [H|H].
    + rewrite (P1 H). apply Max_ge_l.
    + now rewrite (P2 H).
Qed.

Lemma lower_mu_safeguard_returns (c : Config) (it : Iterate) (s : State)
    (d p : Number) :
  avrg_dual_inf it = Ok d ->
  avrg_primal_inf it = Ok p ->
  (adaptive_globalization_ c = 1%Z -> refs_vals_ s <> []) ->
  baselines_ok s ->
  exists v, lower_mu_safeguard c it s = Ok (v, latch d p s).
Proof.
  intros Hd Hp Hrefs Hok.
  destruct (latch_latched d p s Hok) as [Ld Lp].
  rewrite lower_mu_safeguard_unfold, Hd, Hp.
  cbn [bindR]. unfold uncapped_safeguard.
  rewrite (Number_quot_latched d _ Ld), (Number_quot_latched p _ Lp).
  cbn [bindR].
  destruct (Z.eqb_spec (adaptive_globalization_ c) 1) as [Hsel|Hsel].
  - destruct (min_ref_val_defined _ (Hrefs Hsel)) as [m Hm].
    rewrite Hm. simpl. eauto.
  - eauto.
Qed.

(** C10: each baseline of the safeguard is latched exactly once.  A baseline
    is unset (negative, as [InitializeImpl] leaves it) or latched (at least
    1).  A call of [lower_mu_safeguard] that observes the averaged
    infeasibilities [d] and [p] sets an unset baseline to [Max 1 d]
    (respectively [Max 1 p]) and leaves a latched one as it is; afterwards
    both are latched, so that no later call, whatever it observes, changes
    them. *)
Theorem safeguard_baselines_latch_once (c : Config) (it : Iterate)
    (s : State) (d p : Number) :
  avrg_dual_inf it = Ok d ->
  avrg_primal_inf it = Ok p ->
  (adaptive_globalization_ c = 1%Z -> refs_vals_ s <> []) ->
  (init_dual_inf_ s < 0 \/ 1 <= init_dual_inf_ s) ->
  (init_primal_inf_ s < 0 \/ 1 <= init_primal_inf_ s) ->
  exists (v : Number) (s' : State),
    lower_mu_safeguard c it s = Ok (v, s') /\
    (init_dual_inf_ s < 0 -> init_dual_inf_ s' = Max 1 d) /\
    (1 <= init_dual_inf_ s -> init_dual_inf_ s' = init_dual_inf_ s) /\
    (init_primal_inf_ s < 0 -> init_primal_inf_ s' = Max 1 p) /\
    (1 <= init_primal_inf_ s -> init_primal_inf_ s' = init_primal_inf_ s) /\
    1 <= init_dual_inf_ s' /\ 1 <= init_primal_inf_ s'.
Proof.
  intros Hd Hp Hrefs Hid Hip.
  destruct (lower_mu_safeguard_returns c it s d p Hd Hp Hrefs (conj Hid Hip))
    as [v Hv].
  exists v, (latch d p s). split; [exact Hv|].
  destruct (latch_baselines d p s) as (D1 & D2 & P1 & P2).
  destruct (latch_latched d p s (conj Hid Hip)) as [Ld Lp].
  repeat split; assumption.
Qed.

(** ** The reference history *)

(** A run of [RememberCurrentPointAsAccepted], one call per iterate. *)
Fixpoint remember_all (c : Config) (its : list Iterate) : M unit :=
  match its with
  | [] => ret tt
  | it :: rest => RememberCurrentPointAsAccepted c it ;; remember_all c rest
  end.

(** The last [n] elements of a list (all of it when it is shorter). *)
Definition last_n {A} (n : nat) (l : list A) : list A :=
  skipn (List.length l - n) l.

Lemma last_n_length {A} (n : nat) (l : list A) :
  List.length (last_n n l) = Nat.min n (List.length l).
Proof. unfold last_n. rewrite length_skipn. lia. Qed.

Lemma last_n_snoc {A} (n : nat) (l : list A) (v : A) :
  (1 <= n)%nat ->
  last_n n (l ++ [v]) =
  ((if (n <=? List.length (last_n n l))%nat then tl (last_n n l)
    else last_n n l) ++ [v])%list.
Proof.
  intros Hn. rewrite last_n_length. unfold last_n.
  rewrite length_app, skipn_app. simpl.
  destruct (Nat.leb_spec n (Nat.min n (List.length l))) as [H|H].
  - rewrite tl_skipn.
    replace (List.length l + 1 - n)%nat with (S (List.length l - n)) by lia.
    replace (S (List.length l - n) - List.length l)%nat with 0%nat by lia.
    reflexivity.
  - replace (List.length l + 1 - n)%nat with 0%nat by lia.
    replace (List.length l - n)%nat with 0%nat by lia.
    reflexivity.
Qed.

Lemma Remember_selector_1 (c : Config) (it : Iterate) (s : State)
    (v : Number) :
  adaptive_globalization_ c = 1%Z ->
  (1 <= num_refs_max_ c)%Z ->
  curr_norm_pd_system it = Ok v ->
  RememberCurrentPointAsAccepted c it s =
  Ok (tt,
      set_refs_vals
        ((if (Z.to_nat (num_refs_max_ c) <=? List.length (refs_vals_ s))%nat
          then tl (refs_vals_ s) else refs_vals_ s) ++ [v])%list s).
Proof.
  intros Hsel Hmax Hv.
  unfold RememberCurrentPointAsAccepted, bind, lift, gets, modify, ret.
  rewrite Hsel, Hv. simpl.
  destruct (Z.geb_spec (Z.of_nat (List.length (refs_vals_ s)))
              (num_refs_max_ c)) as [H|H];
    destruct (Nat.leb_spec (Z.to_nat (num_refs_max_ c))
                (List.length (refs_vals_ s))) as [H'|H']; try lia.
  - destruct (refs_vals_ s) as [|r refs]; simpl in *; [lia | reflexivity].
  - reflexivity.
Qed.

Lemma remember_all_history (c : Config) (its : list Iterate) :
  adaptive_globalization_ c = 1%Z ->
  (1 <= num_refs_max_ c)%Z ->
  forall (vals hist : list Number) (s : State),
    Forall2 (fun it v => curr_norm_pd_system it = Ok v) its vals ->
    refs_vals_ s = last_n (Z.to_nat (num_refs_max_ c)) hist ->
    exists s',
      remember_all c its s = Ok (tt, s') /\
      refs_vals_ s' = last_n (Z.to_nat (num_refs_max_ c)) (hist ++ vals).
Proof.
  intros Hsel Hmax.
  induction its as [|it its IH]; intros vals hist s Hvals Hs.
  - inversion Hvals; subst. exists s. rewrite app_nil_r. auto.
  - inversion Hvals as [|? v ? vals' Hv Hrest]; subst.
    simpl. unfold bind.
    rewrite (Remember_selector_1 c it s v Hsel Hmax Hv).
    destruct (IH vals' (hist ++ [v])%list
                (set_refs_vals
                   ((if (Z.to_nat (num_refs_max_ c)
                         <=? List.length (refs_vals_ s))%nat
                     then tl (refs_vals_ s) else refs_vals_ s) ++ [v])%list s)
                Hrest) as (s' & Hrun & Hrefs).
    + destruct s; simpl in *. rewrite Hs.
      symmetry. apply last_n_snoc. lia.
    + exists s'. split; [exact Hrun|].
      rewrite Hrefs, <- app_assoc. reflexivity.
Qed.

(** C9, amended: with [num_refs_max >= 1] and selector 1, a run of
    [RememberCurrentPointAsAccepted] from the empty history leaves the last
    [num_refs_max] inserted values, in the order of insertion.  So the
    length never exceeds [num_refs_max], the newest value is the last entry,
    and after [num_refs_max + 1] insertions the entry inserted first is gone:
    the history is exactly the later ones. *)
Theorem reference_history_fifo (c : Config) (its : list Iterate)
    (vals : list Number) (s : State) :
  adaptive_globalization_ c = 1%Z ->
  (1 <= num_refs_max_ c)%Z ->
  refs_vals_ s = [] ->
  Forall2 (fun it v => curr_norm_pd_system it = Ok v) its vals ->
  exists s' : State,
    remember_all c its s = Ok (tt, s') /\
    refs_vals_ s' = last_n (Z.to_nat (num_refs_max_ c)) vals /\
    (Z.of_nat (List.length (refs_vals_ s')) <= num_refs_max_ c)%Z /\
    (forall front newest, vals = (front ++ [newest])%list ->
       exists kept, refs_vals_ s' = (kept ++ [newest])%list) /\
    (forall oldest later, vals = oldest :: later ->
       Z.of_nat (List.length later) = num_refs_max_ c ->
       refs_vals_ s' = later).
Proof.
  intros Hsel Hmax Hs Hvals.
  destruct (remember_all_history c its Hsel Hmax vals [] s Hvals)
    as (s' & Hrun & Hrefs).
  { rewrite Hs. reflexivity. }
  simpl in Hrefs. exists s'. split; [exact Hrun|]. split; [exact Hrefs|].
  rewrite Hrefs. split; [|split].
  - rewrite last_n_length. lia.
  - intros front newest ->.
    rewrite last_n_snoc by lia. eauto.
  - intros oldest later -> Hlen. unfold last_n. simpl List.length.
    replace (S (List.length later) - Z.to_nat (num_refs_max_ c))%nat
      with 1%nat by lia.
    reflexivity.
Qed.

(** ** What the other member functions change *)

Lemma Remember_frame (c : Config) (it : Iterate) (s s' : State) :
  RememberCurrentPointAsAccepted c it s = Ok (tt, s') ->
  exists refs fl, s' = set_filter fl (set_refs_vals refs s).
Proof.
  unfold RememberCurrentPointAsAccepted, bind, lift, gets, modify, ret.
  destruct s as [id ip refs chk nb fl mu tau free info tr]; simpl.
  destruct (adaptive_globalization_ c =? 1)%Z.
  - destruct (curr_norm_pd_system it) as [e|]; [|discriminate].
    destruct (_ >=? _)%Z; simpl.
    + destruct (pop_front _) as [refs'|]; simpl; [|discriminate].
      intros H; injection H as <-. exists (refs' ++ [e])%list, fl. reflexivity.
    + intros H; injection H as <-. exists (refs ++ [e])%list, fl. reflexivity.
  - destruct (adaptive_globalization_ c =? 2)%Z;
      intros H; injection H as <-.
    + exists refs. eexists. unfold set_filter, set_refs_vals. simpl.
      reflexivity.
    + exists refs, fl. reflexivity.
Qed.

(** The proposal that [NewFixedMu] starts from. *)
Definition raw_proposal (it : Iterate) : Number :=
  match fix_mu_oracle_CalculateMu it with
  | Some mu => mu
  | None => curr_avrg_compl it
  end.

(** The value [max_ref] of [NewFixedMu]; the cap is a tenth of it. *)
Definition fixed_mode_max_ref (c : Config) (s : State) : result Number :=
  if (adaptive_globalization_ c =? 1)%Z then max_ref_val (refs_vals_ s)
  else if (adaptive_globalization_ c =? 2)%Z then Ok 1e20
  else Err UninitializedRead.

Lemma NewFixedMu_unfold (c : Config) (it : Iterate) (s : State) :
  NewFixedMu c it s =
  (max_ref <~ fixed_mode_max_ref c s ;;
   r <~ lower_mu_safeguard c it s ;;
   Ok (Min (Max (Min (Max (raw_proposal it) (fst r)) (0.1 * max_ref))
              (mu_min_ c)) (mu_max_ c),
       snd r)).
Proof.
  unfold NewFixedMu, fixed_mode_max_ref, raw_proposal, bind, lift, gets, ret,
    bindR.
  destruct (adaptive_globalization_ c =? 1)%Z.
  - destruct (max_ref_val (refs_vals_ s)); [|reflexivity].
    destruct (lower_mu_safeguard c it s) as [[v s']|]; reflexivity.
  - destruct (adaptive_globalization_ c =? 2)%Z; [|reflexivity].
    destruct (lower_mu_safeguard c it s) as [[v s']|]; reflexivity.
Qed.

Lemma NewFixedMu_inv (c : Config) (it : Iterate) (s s' : State)
    (mu : Number) :
  NewFixedMu c it s = Ok (mu, s') ->
  exists x d p,
    mu = Min (Max x (mu_min_ c)) (mu_max_ c) /\ s' = latch d p s.
Proof.
  rewrite NewFixedMu_unfold. unfold bindR.
  destruct (fixed_mode_max_ref c s) as [max_ref|]; [|discriminate].
  destruct (lower_mu_safeguard c it s) as [[v s1]|] eqn:E; [|discriminate].
  intros H; inversion H; subst.
  destruct (lower_mu_safeguard_inv _ _ _ _ _ E) as (d & p & _ & _ & ->).
  simpl. eauto.
Qed.

(** [max_ref_val] and [min_ref_val] are the largest and the smallest of
    the stored reference values. *)
Lemma fold_Max (rest : list Number) (acc : Number) :
  let m := fold_left (fun max_ref v => Max max_ref v) rest acc in
  (m = acc \/ In m rest) /\ acc <= m /\ forall r, In r rest -> r <= m.
Proof.
  revert acc. induction rest as [|v rest IH]; intros acc; simpl.
  - split; [now left|]. split; [apply Qle_refl | tauto].
  - destruct (IH (Max acc v)) as (Hin & Hacc & Hall).
    split; [|split].
    + destruct Hin as [Hin|Hin]; [|now right; right].
      rewrite Hin. unfold Max. destruct (Qlt_bool v acc); auto.
    + pose proof (Max_ge_l acc v). lra.
    + intros r [<-|Hr]; [|now apply Hall].
      pose proof (Max_ge_r acc v). lra.
Qed.

Lemma fold_Min (rest : list Number) (acc : Number) :
  let m := fold_left (fun min_ref v => Min min_ref v) rest acc in
  (m = acc \/ In m rest) /\ m <= acc /\ forall r, In r rest -> m <= r.
Proof.
  revert acc. induction rest as [|v rest IH]; intros acc; simpl.
  - split; [now left|]. split; [apply Qle_refl | tauto].
  - destruct (IH (Min acc v)) as (Hin & Hacc & Hall).
    split; [|split].
    + destruct Hin as [Hin|Hin]; [|now right; right].
      rewrite Hin. unfold Min. destruct (Qlt_bool acc v); auto.
    + pose proof (Min_le_l acc v). lra.
    + intros r [<-|Hr]; [|now apply Hall].
      pose proof (Min_le_r acc v). lra.
Qed.

Lemma max_ref_val_is_maximum (refs : list Number) (m : Number) :
  max_ref_val refs = Ok m ->
  In m refs /\ forall r, In r refs -> r <= m.
Proof.
  destruct refs as [|first rest]; [discriminate|].
  simpl. intros H; injection H as <-.
  destruct (fold_Max rest first) as (Hin & Hacc & Hall).
  split.
  - destruct Hin as [Hin|Hin]; [left; now symmetry | now right].
  - intros r [<-|Hr]; auto.
Qed.

Lemma min_ref_val_is_minimum (refs : list Number) (m : Number) :
  min_ref_val refs = Ok m ->
  In m refs /\ forall r, In r refs -> m <= r.
Proof.
  destruct refs as [|first rest]; [discriminate|].
  simpl. intros H; injection H as <-.
  destruct (fold_Min rest first) as (Hin & Hacc & Hall).
  split.
  - destruct Hin as [Hin|Hin]; [left; now symmetry | now right].
  - intros r [<-|Hr]; auto.
Qed.

(** ** The events of one call of [UpdateBarrierParameter] *)

Lemma latch_trace (d p : Number) (s : State) : trace (latch d p s) = trace s.
Proof. apply (latch_frame d p s). Qed.

Lemma latch_FreeMuMode (d p : Number) (s : State) :
  FreeMuMode (latch d p s) = FreeMuMode s.
Proof. apply (latch_frame d p s). Qed.

Lemma latch_curr_mu (d p : Number) (s : State) :
  curr_mu (latch d p s) = curr_mu s.
Proof. apply (latch_frame d p s). Qed.

Arguments latch : simpl never.

(** The events of the third block.  In the free mode: the tag "m" when the
    safeguard raised the value, then the commit of [mu] and [tau] and the
    reset, where [mu] is some value not below [mu_min], capped by
    [mu_max].  In the fixed mode: the tag "F". *)
Lemma free_mu_phase_events (c : Config) (it : Iterate) (s s' : State) :
  free_mu_phase c it s = Ok (tt, s') ->
  (FreeMuMode s = true /\
   exists tag mu',
     (tag = [] \/ tag = [Append_info_string "m"]) /\
     mu_min_ c <= mu' /\
     trace s' =
     (trace s ++ tag ++
        [Set_mu (Min mu' (mu_max_ c));
         Set_tau (Compute_tau c (Min mu' (mu_max_ c))); Reset])%list) \/
  (FreeMuMode s = false /\
   trace s' = (trace s ++ [Append_info_string "F"])%list).
Proof.
  unfold free_mu_phase, bind, gets, call, modify, ret.
  destruct (FreeMuMode s) eqn:EF.
  - destruct (lower_mu_safeguard c it s) as [[lsg s1]|] eqn:EL; [|discriminate].
    destruct (lower_mu_safeguard_inv _ _ _ _ _ EL) as (d & p & _ & _ & ->).
    destruct (Qlt_bool_spec (Max (free_mu_oracle_CalculateMu it) (mu_min_ c))
                lsg) as [Hlt|Hge];
      intros H; injection H as <-; left; (split; [reflexivity|]).
    + exists [Append_info_string "m"], lsg. split; [now right|]. split.
      * pose proof (Max_ge_r (free_mu_oracle_CalculateMu it) (mu_min_ c)).
        lra.
      * simpl. rewrite latch_trace. repeat rewrite <- app_assoc. reflexivity.
    + exists [], (Max (free_mu_oracle_CalculateMu it) (mu_min_ c)).
      split; [now left|]. split; [apply Max_ge_r|].
      simpl. rewrite latch_trace. repeat rewrite <- app_assoc. reflexivity.
  - intros H; injection H as <-. right. split; reflexivity.
Qed.

(** The value that the fixed mode commits when it reduces [mu]. *)
Definition reduced_mu (c : Config) (it : Iterate) (s : State) : Number :=
  Max (Min (kappa_mu_ c * curr_mu s) (pow (curr_mu s) (theta_mu_ c)))
      (epsilon_tol it / 10).

(** The five ways through the second block: the events and the mode it
    leaves. *)
Inductive transition (c : Config) (it : Iterate) (s : State)
  : list Event -> bool -> Prop :=
| stay_free :
    FreeMuMode s = true ->
    CheckSufficientProgress c it s = Ok true ->
    transition c it s [] true
| switch_to_fixed (x : Number) :
    FreeMuMode s = true ->
    CheckSufficientProgress c it s = Ok false ->
    transition c it s
      [SetFreeMuMode false;
       Set_mu (Min (Max x (mu_min_ c)) (mu_max_ c));
       Set_tau (Compute_tau c (Min (Max x (mu_min_ c)) (mu_max_ c)));
       Reset] false
| switch_to_free :
    FreeMuMode s = false ->
    CheckSufficientProgress c it s = Ok true ->
    transition c it s [SetFreeMuMode true] true
| reduce_fixed_mu :
    FreeMuMode s = false ->
    CheckSufficientProgress c it s = Ok false ->
    curr_barrier_error it <= kappa_epsilon_ c * curr_mu s ->
    transition c it s
      [Set_mu (reduced_mu c it s); Set_tau (Compute_tau c (curr_mu s)); Reset]
      false
| stay_fixed :
    FreeMuMode s = false ->
    CheckSufficientProgress c it s = Ok false ->
    ~ curr_barrier_error it <= kappa_epsilon_ c * curr_mu s ->
    transition c it s [] false.

Lemma mode_transition_events (c : Config) (it : Iterate) (s s' : State) :
  mode_transition c it s = Ok (tt, s') ->
  exists evs,
    transition c it s evs (FreeMuMode s') /\
    trace s' = (trace s ++ evs)%list.
Proof.
  unfold mode_transition, bind, gets, call, modify, ret, lift.
  destruct (FreeMuMode s) eqn:EF; cbn [negb].
  - destruct (CheckSufficientProgress c it s) as [[|]|] eqn:EC;
      [| |discriminate].
    + destruct (RememberCurrentPointAsAccepted c it s) as [[[] s1]|] eqn:ER;
        [|discriminate].
      destruct (Remember_frame _ _ _ _ ER) as (refs & fl & ->).
      intros H; injection H as <-. exists []. simpl. rewrite EF. split.
      * now constructor.
      * now rewrite app_nil_r.
    + destruct (NewFixedMu c it (emit (SetFreeMuMode false) s))
        as [[mu s1]|] eqn:EN; [|discriminate].
      destruct (NewFixedMu_inv _ _ _ _ _ EN) as (x & d & p & -> & ->).
      intros H; injection H as <-. eexists. simpl.
      rewrite latch_FreeMuMode, latch_trace. simpl. split.
      * now apply (switch_to_fixed c it s x).
      * repeat rewrite <- app_assoc. reflexivity.
  - destruct (CheckSufficientProgress c it s) as [[|]|] eqn:EC;
      [| |discriminate].
    + destruct (RememberCurrentPointAsAccepted c it
                  (emit (SetFreeMuMode true) s)) as [[[] s1]|] eqn:ER;
        [|discriminate].
      destruct (Remember_frame _ _ _ _ ER) as (refs & fl & ->).
      intros H; injection H as <-. eexists. simpl. split.
      * now constructor.
      * reflexivity.
    + destruct (Qle_bool_spec (curr_barrier_error it)
                  (kappa_epsilon_ c * curr_mu s)) as [Hle|Hgt];
        intros H; injection H as <-; eexists; simpl; rewrite ?EF; split.
      * now apply reduce_fixed_mu.
      * repeat rewrite <- app_assoc. reflexivity.
      * now apply stay_fixed.
      * now rewrite app_nil_r.
Qed.

(** The events of the third block, by the mode the second block left. *)
Inductive free_mu_events (c : Config) : bool -> list Event -> Prop :=
| free_commit (tag : list Event) (mu' : Number) :
    tag = [] \/ tag = [Append_info_string "m"] ->
    mu_min_ c <= mu' ->
    free_mu_events c true
      (tag ++
         [Set_mu (Min mu' (mu_max_ c));
          Set_tau (Compute_tau c (Min mu' (mu_max_ c))); Reset])
| fixed_tag : free_mu_events c false [Append_info_string "F"].

(** The events of one call. *)
Inductive call_shape (c : Config) (it : Iterate) (s : State)
  : list Event -> Prop :=
| no_bounds_first_call :
    check_if_no_bounds_ s = false ->
    n_bounds it = Ok 0%Z ->
    call_shape c it s [Set_mu (mu_min_ c); Set_tau (tau_min_ c)]
| no_bounds_return :
    no_bounds_ s = true ->
    call_shape c it s []
| with_bounds (evs1 evs2 : list Event) (free : bool) :
    transition c it s evs1 free ->
    free_mu_events c free evs2 ->
    call_shape c it s (evs1 ++ evs2).

(** What [trace] gained between two states. *)
Definition call_events (s s' : State) : list Event :=
  skipn (List.length (trace s)) (trace s').

Lemma check_no_bounds_cases (c : Config) (it : Iterate) (s s1 : State) :
  check_no_bounds c it s = Ok (tt, s1) ->
  (check_if_no_bounds_ s = true /\ s1 = s) \/
  (check_if_no_bounds_ s = false /\ n_bounds it = Ok 0%Z /\
   s1 = set_check_if_no_bounds true
          (emit (Set_tau (tau_min_ c))
             (emit (Set_mu (mu_min_ c)) (set_no_bounds true s)))) \/
  (check_if_no_bounds_ s = false /\ s1 = set_check_if_no_bounds true s).
Proof.
  unfold check_no_bounds, bind, gets, call, modify, ret, lift.
  destruct (check_if_no_bounds_ s) eqn:EC; cbn [negb].
  - intros H; injection H as <-. now left.
  - destruct (n_bounds it) as [n|]; [|discriminate].
    destruct (Z.eqb_spec n 0) as [->|Hn]; intros H; injection H as <-.
    + right; left. repeat split.
    + right; right. repeat split.
Qed.

Lemma CheckSufficientProgress_set_check (c : Config) (it : Iterate)
    (s : State) (b : bool) :
  CheckSufficientProgress c it (set_check_if_no_bounds b s) =
  CheckSufficientProgress c it s.
Proof. reflexivity. Qed.

Lemma transition_set_check (c : Config) (it : Iterate) (s : State)
    (b free : bool) (evs : list Event) :
  transition c it (set_check_if_no_bounds b s) evs free ->
  transition c it s evs free.
Proof.
  intros H. inversion H as [F C | x F C | F C | F C E | F C E]; subst.
  - exact (stay_free c it s F C).
  - exact (switch_to_fixed c it s x F C).
  - exact (switch_to_free c it s F C).
  - exact (reduce_fixed_mu c it s F C E).
  - exact (stay_fixed c it s F C E).
Qed.

Lemma phases_events (c : Config) (it : Iterate) (s s' : State) :
  bind (mode_transition c it) (fun _ => free_mu_phase c it) s = Ok (tt, s') ->
  exists evs1 evs2 free,
    transition c it s evs1 free /\ free_mu_events c free evs2 /\
    trace s' = (trace s ++ evs1 ++ evs2)%list.
Proof.
  unfold bind at 1.
  destruct (mode_transition c it s) as [[[] s1]|] eqn:E1; [|discriminate].
  intros E2.
  destruct (mode_transition_events _ _ _ _ E1) as (evs1 & Ht & Htr1).
  destruct (free_mu_phase_events _ _ _ _ E2)
    as [(Hf & tag & mu' & Htag & Hmu & Htr2) | (Hf & Htr2)].
  - exists evs1. eexists. exists true. rewrite Hf in Ht. split; [exact Ht|].
    split; [apply (free_commit c tag mu' Htag Hmu)|].
    rewrite Htr2, Htr1. now rewrite <- app_assoc.
  - exists evs1. eexists. exists false. rewrite Hf in Ht. split; [exact Ht|].
    split; [apply fixed_tag|].
    rewrite Htr2, Htr1. now rewrite <- app_assoc.
Qed.

Lemma UpdateBarrierParameter_events (c : Config) (it : Iterate)
    (s s' : State) :
  UpdateBarrierParameter c it s = Ok (tt, s') ->
  call_shape c it s (call_events s s') /\
  trace s' = (trace s ++ call_events s s')%list.
Proof.
  intros H.
  assert (exists evs, call_shape c it s evs /\
                      trace s' = (trace s ++ evs)%list) as (evs & Hs & Ht).
  { revert H. unfold UpdateBarrierParameter. unfold bind at 1.
    destruct (check_no_bounds c it s) as [[[] s1]|] eqn:E1; [|discriminate].
    unfold bind at 1, gets.
    destruct (check_no_bounds_cases _ _ _ _ E1)
      as [(Hc & ->) | [(Hc & Hn & ->) | (Hc & ->)]].
    - destruct (no_bounds_ s) eqn:Enb.
      + intros H; injection H as <-. exists []. split.
        * now apply no_bounds_return.
        * now rewrite app_nil_r.
      + intros H. destruct (phases_events _ _ _ _ H)
          as (evs1 & evs2 & free & T1 & T2 & Htr).
        exists (evs1 ++ evs2)%list. split; [|exact Htr].
        now apply (with_bounds c it s evs1 evs2 free).
    - simpl. intros H; injection H as <-. eexists. split.
      + now apply no_bounds_first_call.
      + simpl. now rewrite <- app_assoc.
    - simpl. destruct (no_bounds_ s) eqn:Enb.
      + intros H; injection H as <-. exists []. split.
        * now apply no_bounds_return.
        * simpl. now rewrite app_nil_r.
      + intros H. destruct (phases_events _ _ _ _ H)
          as (evs1 & evs2 & free & T1 & T2 & Htr).
        exists (evs1 ++ evs2)%list. split; [|exact Htr].
        apply (with_bounds c it s evs1 evs2 free); [|exact T2].
        now apply (transition_set_check c it s true). }
  unfold call_events. rewrite Ht, skipn_length_app. now split.
Qed.

(** ** A call returns *)

Lemma norm_defined_parts (it : Iterate) (e : Number) :
  curr_norm_pd_system it = Ok e ->
  exists d p n,
    avrg_dual_inf it = Ok d /\ avrg_primal_inf it = Ok p /\
    n_bounds it = Ok n.
Proof.
  unfold curr_norm_pd_system, avrg_dual_inf, avrg_primal_inf, n_bounds.
  destruct (Index_add (dim_x it) (dim_s it)) as [n_dual|]; [|discriminate].
  cbn [bindR].
  destruct (Number_div (curr_dual_infeasibility it) n_dual) as [d|];
    [|discriminate].
  cbn [bindR].
  destruct (Index_add (dim_y_c it) (dim_y_d it)) as [n_pri|]; [|discriminate].
  cbn [bindR].
  destruct (if (0 <? n_pri)%Z
            then Number_div (curr_primal_infeasibility it) n_pri
            else Ok (curr_primal_infeasibility it)) as [p|]; [|discriminate].
  cbn [bindR].
  destruct (Index_add (dim_z_L it) (dim_z_U it)) as [n1|]; [|discriminate].
  cbn [bindR].
  destruct (Index_add n1 (dim_v_L it)) as [n2|]; [|discriminate].
  cbn [bindR].
  destruct (Index_add n2 (dim_v_U it)) as [n|]; [|discriminate].
  intros _. exists d, p, n. repeat split.
Qed.

Lemma emit_baselines (e : Event) (s : State) :
  baselines_ok s -> baselines_ok (emit e s).
Proof. destruct e; exact (fun H => H). Qed.

Lemma latch_baselines_ok (d p : Number) (s : State) :
  baselines_ok s -> baselines_ok (latch d p s).
Proof.
  intros H. destruct (latch_latched d p s H). split; now right.
Qed.

Lemma CheckSufficientProgress_returns (c : Config) (it : Iterate)
    (s : State) (e : Number) :
  curr_norm_pd_system it = Ok e ->
  (adaptive_globalization_ c = 1%Z -> (1 <= num_refs_max_ c)%Z) ->
  exists b,
    CheckSufficientProgress c it s = Ok b /\
    (b = false ->
     (adaptive_globalization_ c = 1%Z /\ refs_vals_ s <> []) \/
     adaptive_globalization_ c = 2%Z).
Proof.
  intros He Hmax. unfold CheckSufficientProgress.
  destruct (mu_never_fix_ c).
  { exists true. split; [reflexivity | discriminate]. }
  destruct (Z.eqb_spec (adaptive_globalization_ c) 1) as [Hsel|Hsel].
  - destruct (Z.geb_spec (Z.of_nat (List.length (refs_vals_ s)))
                (num_refs_max_ c)) as [Hlen|Hlen].
    + rewrite He. cbn [bindR]. eexists. split; [reflexivity|].
      intros _. left. split; [exact Hsel|].
      specialize (Hmax Hsel). destruct (refs_vals_ s); simpl in *;
        [lia | discriminate].
    + exists true. split; [reflexivity | discriminate].
  - destruct (Z.eqb_spec (adaptive_globalization_ c) 2) as [Hsel2|Hsel2].
    + eexists. split; [reflexivity|]. intros _. now right.
    + exists true. split; [reflexivity | discriminate].
Qed.

Lemma Remember_returns (c : Config) (it : Iterate) (s : State) (e : Number) :
  curr_norm_pd_system it = Ok e ->
  (adaptive_globalization_ c = 1%Z -> (1 <= num_refs_max_ c)%Z) ->
  exists s',
    RememberCurrentPointAsAccepted c it s = Ok (tt, s') /\
    init_dual_inf_ s' = init_dual_inf_ s /\
    init_primal_inf_ s' = init_primal_inf_ s /\
    FreeMuMode s' = FreeMuMode s /\
    (adaptive_globalization_ c = 1%Z -> refs_vals_ s' <> []).
Proof.
  intros He Hmax.
  destruct (Z.eqb_spec (adaptive_globalization_ c) 1) as [Hsel|Hsel].
  - rewrite (Remember_selector_1 c it s e Hsel (Hmax Hsel) He).
    eexists. split; [reflexivity|]. repeat split. intros _. simpl.
    intros H. apply app_eq_nil in H. destruct H as [_ H]. discriminate H.
  - unfold RememberCurrentPointAsAccepted, bind, gets, modify, ret.
    destruct (Z.eqb_spec (adaptive_globalization_ c) 1); [contradiction|].
    destruct (adaptive_globalization_ c =? 2)%Z;
      (eexists; split; [reflexivity|]; repeat split; contradiction).
Qed.

Lemma NewFixedMu_returns (c : Config) (it : Iterate) (s : State)
    (d p : Number) :
  avrg_dual_inf it = Ok d ->
  avrg_primal_inf it = Ok p ->
  (adaptive_globalization_ c = 1%Z /\ refs_vals_ s <> []) \/
  adaptive_globalization_ c = 2%Z ->
  baselines_ok s ->
  exists mu, NewFixedMu c it s = Ok (mu, latch d p s).
Proof.
  intros Hd Hp Hsel Hok. rewrite NewFixedMu_unfold.
  assert (Hrefs : adaptive_globalization_ c = 1%Z -> refs_vals_ s <> []).
  { destruct Hsel as [[_ H]|H]; [auto | rewrite H; discriminate]. }
  destruct (lower_mu_safeguard_returns c it s d p Hd Hp Hrefs Hok) as [v Hv].
  rewrite Hv. unfold fixed_mode_max_ref.
  destruct Hsel as [[Hsel Hne]|Hsel]; rewrite Hsel; simpl.
  - destruct (refs_vals_ s) as [|r refs]; [contradiction|]. simpl. eauto.
  - eauto.
Qed.

Lemma free_mu_phase_returns (c : Config) (it : Iterate) (s : State)
    (d p : Number) :
  avrg_dual_inf it = Ok d ->
  avrg_primal_inf it = Ok p ->
  (FreeMuMode s = true ->
   adaptive_globalization_ c = 1%Z -> refs_vals_ s <> []) ->
  baselines_ok s ->
  exists s', free_mu_phase c it s = Ok (tt, s') /\ baselines_ok s'.
Proof.
  intros Hd Hp Hrefs Hok.
  unfold free_mu_phase, bind, gets, call, modify, ret.
  destruct (FreeMuMode s).
  - destruct (lower_mu_safeguard_returns c it s d p Hd Hp (Hrefs eq_refl) Hok)
      as [v Hv].
    rewrite Hv.
    destruct (Qlt_bool (Max (free_mu_oracle_CalculateMu it) (mu_min_ c)) v);
      (eexists; split; [reflexivity|]);
      repeat apply emit_baselines; now apply latch_baselines_ok.
  - eexists. split; [reflexivity|]. now apply emit_baselines.
Qed.

Lemma mode_transition_returns (c : Config) (it : Iterate) (s : State)
    (e : Number) :
  curr_norm_pd_system it = Ok e ->
  (adaptive_globalization_ c = 1%Z -> (1 <= num_refs_max_ c)%Z) ->
  baselines_ok s ->
  exists s',
    mode_transition c it s = Ok (tt, s') /\ baselines_ok s' /\
    (FreeMuMode s' = true ->
     adaptive_globalization_ c = 1%Z -> refs_vals_ s' <> []).
Proof.
  intros He Hmax Hok.
  destruct (norm_defined_parts it e He) as (d & p & n & Hd & Hp & _).
  destruct (CheckSufficientProgress_returns c it s e He Hmax)
    as (b & Hb & Hfalse).
  unfold mode_transition, bind, gets, call, modify, ret, lift.
  destruct (FreeMuMode s) eqn:EF; cbn [negb]; rewrite Hb; destruct b.
  - destruct (Remember_returns c it s e He Hmax)
      as (s' & Hr & Hid & Hip & Hf & Hne).
    rewrite Hr. exists s'. split; [reflexivity|]. split.
    + unfold baselines_ok. rewrite Hid, Hip. exact Hok.
    + intros _. exact Hne.
  - destruct (NewFixedMu_returns c it (emit (SetFreeMuMode false) s) d p
                Hd Hp (Hfalse eq_refl) (emit_baselines _ _ Hok)) as [mu Hmu].
    rewrite Hmu. eexists. split; [reflexivity|]. split.
    + repeat apply emit_baselines. now apply latch_baselines_ok.
    + simpl. rewrite latch_FreeMuMode. simpl. discriminate.
  - destruct (Remember_returns c it (emit (SetFreeMuMode true) s) e He Hmax)
      as (s' & Hr & Hid & Hip & Hf & Hne).
    rewrite Hr. exists s'. split; [reflexivity|]. split.
    + unfold baselines_ok. rewrite Hid, Hip. exact Hok.
    + intros _. exact Hne.
  - destruct (Qle_bool (curr_barrier_error it)
                (kappa_epsilon_ c * curr_mu s));
      (eexists; split; [reflexivity|]; split;
       [ repeat apply emit_baselines; exact Hok
       | simpl; rewrite EF; discriminate ]).
Qed.

(** On an iterate whose scaled norm is defined (a nonzero number of primal
    variables and slacks, sums of dimensions within an [Index]), with
    baselines that are unset or latched and, under selector 1, room for at
    least one reference value, the call returns: no path reads an empty list
    or an unset local or divides by zero. *)
Theorem UpdateBarrierParameter_returns (c : Config) (it : Iterate)
    (s : State) (e : Number) :
  curr_norm_pd_system it = Ok e ->
  (adaptive_globalization_ c = 1%Z -> (1 <= num_refs_max_ c)%Z) ->
  baselines_ok s ->
  exists s', UpdateBarrierParameter c it s = Ok (tt, s') /\ baselines_ok s'.
Proof.
  intros He Hmax Hok.
  destruct (norm_defined_parts it e He) as (d & p & n & Hd & Hp & Hn).
  assert (Hphases : forall s1, baselines_ok s1 ->
            exists s', bind (mode_transition c it)
                         (fun _ => free_mu_phase c it) s1 = Ok (tt, s') /\
                       baselines_ok s').
  { intros s1 Hok1.
    destruct (mode_transition_returns c it s1 e He Hmax Hok1)
      as (s2 & H2 & Hok2 & Hne2).
    destruct (free_mu_phase_returns c it s2 d p Hd Hp Hne2 Hok2)
      as (s3 & H3 & Hok3).
    exists s3. unfold bind at 1. rewrite H2. now split. }
  unfold UpdateBarrierParameter. unfold bind at 1.
  unfold check_no_bounds, bind at 1, gets, call, modify, ret, lift.
  destruct (check_if_no_bounds_ s) eqn:EC; cbn [negb].
  - unfold bind at 1. destruct (no_bounds_ s).
    + exists s. now split.
    + now apply Hphases.
  - rewrite Hn. unfold bind.
    destruct (n =? 0)%Z.
    + simpl. eexists. split; [reflexivity | exact Hok].
    + simpl. destruct (no_bounds_ s).
      * eexists. split; [reflexivity | exact Hok].
      * apply (Hphases (set_check_if_no_bounds true s)). exact Hok.
Qed.

(** ** The committed pairs *)

(** The pairs that a list of events commits: [Set_mu] followed at once by
    [Set_tau]. *)
Fixpoint commits (evs : list Event) : list (Number * Number) :=
  match evs with
  | [] => []
  | Set_mu mu :: rest =>
      match rest with
      | Set_tau tau :: _ => (mu, tau) :: commits rest
      | _ => commits rest
      end
  | _ :: rest => commits rest
  end.

Definition is_commit (e : Event) : bool :=
  match e with
  | Set_mu _ | Set_tau _ => true
  | _ => false
  end.

Definition is_Reset (e : Event) : bool :=
  match e with
  | Reset => true
  | _ => false
  end.

(** Every [Set_mu] and [Set_tau] of the list has a [Reset] later in the
    list. *)
Fixpoint reset_follows (evs : list Event) : bool :=
  match evs with
  | [] => true
  | e :: rest =>
      (if is_commit e then existsb is_Reset rest else true)
      && reset_follows rest
  end.

(** The case analysis of one call: all the event lists it can leave. *)
Ltac call_cases H :=
  let Hs := fresh "Hshape" in
  let Ht := fresh "Htrace" in
  let evs := fresh "evs" in
  let E := fresh "Eevs" in
  destruct (UpdateBarrierParameter_events _ _ _ _ H) as [Hs Ht];
  remember (call_events _ _) as evs eqn:E; clear E Ht;
  inversion Hs as [Hchk Hnb | Hnb | evs1 evs2 free Htr Hfree]; subst;
  [ | | inversion Htr as [F C | x F C | F C | F C Hle | F C Hgt]; subst;
        inversion Hfree as [tag mu' [Htag|Htag] Hmu' | ]; subst ].

(** C1, amended: in every pair that a call commits when it switches to the
    fixed mode or computes the barrier parameter of the free mode, [tau] is
    [Compute_tau] of the [mu] committed with it; the first call on a problem
    without bounds commits the pair [(mu_min, tau_min)].  (Nothing is said
    on the pair that the fixed mode commits when it reduces [mu].) *)
Theorem committed_tau_is_Compute_tau (c : Config) (it : Iterate)
    (s s' : State) :
  UpdateBarrierParameter c it s = Ok (tt, s') ->
  forall mu tau : Number,
    In (mu, tau) (commits (call_events s s')) ->
    tau = Compute_tau c mu \/
    (check_if_no_bounds_ s = false /\ n_bounds it = Ok 0%Z /\
     mu = mu_min_ c /\ tau = tau_min_ c) \/
    (FreeMuMode s = false /\
     CheckSufficientProgress c it s = Ok false /\
     curr_barrier_error it <= kappa_epsilon_ c * curr_mu s).
Proof.
  intros H mu tau Hin. call_cases H; simpl in Hin;
    repeat match goal with
           | H : _ \/ _ |- _ => destruct H
           | H : (_, _) = (_, _) |- _ => injection H as <- <-
           | H : False |- _ => destruct H
           end;
    solve [ now left | right; left; now repeat split
          | right; right; now repeat split ].
Qed.

Lemma scaled_below (k m : Number) : 0 <= k <= 1 -> 0 <= m -> k * m <= m.
Proof. intros. nra. Qed.

Lemma reduced_mu_bounds (c : Config) (it : Iterate) (s : State) :
  epsilon_tol it / 10 <= reduced_mu c it s /\
  (mu_min_ c <= epsilon_tol it / 10 ->
   epsilon_tol it / 10 <= mu_max_ c ->
   0 <= kappa_mu_ c <= 1 ->
   0 <= curr_mu s <= mu_max_ c ->
   mu_min_ c <= reduced_mu c it s <= mu_max_ c).
Proof.
  unfold reduced_mu. split; [apply Max_ge_r|].
  intros Hlo Hhi Hk Hmu. split.
  - pose proof (Max_ge_r (Min (kappa_mu_ c * curr_mu s)
                            (pow (curr_mu s) (theta_mu_ c)))
                  (epsilon_tol it / 10)). lra.
  - apply Max_lub; [|exact Hhi].
    pose proof (Min_le_l (kappa_mu_ c * curr_mu s)
                  (pow (curr_mu s) (theta_mu_ c))).
    pose proof (scaled_below (kappa_mu_ c) (curr_mu s) Hk (proj1 Hmu)). lra.
Qed.

Lemma capped_within (c : Config) (mu' : Number) :
  mu_min_ c <= mu_max_ c ->
  mu_min_ c <= mu' ->
  mu_min_ c <= Min mu' (mu_max_ c) <= mu_max_ c.
Proof.
  intros H1 H2. split; [now apply Min_glb | apply Min_le_r].
Qed.

(** C2, amended: with [mu_min <= mu_max], every barrier parameter that a
    call commits on the path of a problem without bounds, at the switch to
    the fixed mode or in the free mode lies in [[mu_min, mu_max]].  The
    value that the fixed mode commits when it reduces [mu] is at least
    [epsilon_tol / 10]; it lies in [[mu_min, mu_max]] when
    [mu_min <= epsilon_tol / 10 <= mu_max], [0 <= kappa_mu <= 1] and the
    barrier parameter before the call is in [[0, mu_max]]. *)
Theorem committed_mu_bounds (c : Config) (it : Iterate) (s s' : State) :
  mu_min_ c <= mu_max_ c ->
  UpdateBarrierParameter c it s = Ok (tt, s') ->
  forall mu : Number,
    In (Set_mu mu) (call_events s s') ->
    mu_min_ c <= mu <= mu_max_ c \/
    (FreeMuMode s = false /\
     CheckSufficientProgress c it s = Ok false /\
     curr_barrier_error it <= kappa_epsilon_ c * curr_mu s /\
     epsilon_tol it / 10 <= mu /\
     (mu_min_ c <= epsilon_tol it / 10 ->
      epsilon_tol it / 10 <= mu_max_ c ->
      0 <= kappa_mu_ c <= 1 ->
      0 <= curr_mu s <= mu_max_ c ->
      mu_min_ c <= mu <= mu_max_ c)).
Proof.
  intros Hcfg H mu Hin. call_cases H; simpl in Hin;
    repeat match goal with
           | H : _ \/ _ |- _ => destruct H
           | H : False |- _ => destruct H
           | H : Set_mu _ = Set_mu _ |- _ => injection H as <-
           | H : _ = Set_mu _ |- _ => discriminate H
           end.
  - left. split; [apply Qle_refl | exact Hcfg].
  - left. now apply capped_within.
  - left. now apply capped_within.
  - left. apply capped_within; [exact Hcfg | apply Max_ge_r].
  - left. now apply capped_within.
  - left. now apply capped_within.
  - right. repeat split; try assumption; apply reduced_mu_bounds; assumption.
Qed.

(** C4, amended: a call that commits [mu] or [tau] signals the reset of the
    line search later in the same call, on every path but one: the first
    call on a problem without bounds commits [mu_min] and [tau_min] and
    returns without a reset. *)
Theorem commit_is_followed_by_Reset (c : Config) (it : Iterate)
    (s s' : State) :
  UpdateBarrierParameter c it s = Ok (tt, s') ->
  reset_follows (call_events s s') = true \/
  (check_if_no_bounds_ s = false /\ n_bounds it = Ok 0%Z /\
   call_events s s' = [Set_mu (mu_min_ c); Set_tau (tau_min_ c)]).
Proof.
  intros H.
  destruct (UpdateBarrierParameter_events _ _ _ _ H) as [Hs _].
  remember (call_events s s') as evs eqn:E. clear E.
  inversion Hs as [Hchk Hnb | Hnb | evs1 evs2 free Htr Hfree]; subst.
  - right. now repeat split.
  - now left.
  - left.
    inversion Htr as [F C | x F C | F C | F C Hle | F C Hgt]; subst;
      inversion Hfree as [tag mu' [Htag|Htag] Hmu' | ]; subst; reflexivity.
Qed.

(** ** The path of a problem without bounds *)

(** A run of [UpdateBarrierParameter], one call per outer iteration. *)
Fixpoint run (c : Config) (its : list Iterate) : M unit :=
  match its with
  | [] => ret tt
  | it :: rest => UpdateBarrierParameter c it ;; run c rest
  end.

(** The state that the first call leaves when there are no bounds. *)
Definition no_bounds_state (c : Config) (s : State) : State :=
  set_check_if_no_bounds true
    (emit (Set_tau (tau_min_ c))
       (emit (Set_mu (mu_min_ c)) (set_no_bounds true s))).

Lemma n_bounds_zero (it : Iterate) :
  dim_z_L it = 0%Z -> dim_z_U it = 0%Z ->
  dim_v_L it = 0%Z -> dim_v_U it = 0%Z ->
  n_bounds it = Ok 0%Z.
Proof.
  intros H1 H2 H3 H4. unfold n_bounds. rewrite H1, H2, H3, H4. reflexivity.
Qed.

Lemma first_call_without_bounds (c : Config) (it : Iterate) (s : State) :
  check_if_no_bounds_ s = false ->
  n_bounds it = Ok 0%Z ->
  UpdateBarrierParameter c it s = Ok (tt, no_bounds_state c s).
Proof.
  intros Hc Hn.
  unfold UpdateBarrierParameter, check_no_bounds, bind, gets, call, modify,
    ret, lift.
  rewrite Hc, Hn. reflexivity.
Qed.

(** Once the path is latched, a call returns at once: it changes nothing,
    whatever the iterate. *)
Lemma latched_call_returns (c : Config) (it : Iterate) (s : State) :
  check_if_no_bounds_ s = true ->
  no_bounds_ s = true ->
  UpdateBarrierParameter c it s = Ok (tt, s).
Proof.
  intros Hc Hn.
  unfold UpdateBarrierParameter, check_no_bounds, bind, gets, call, modify,
    ret, lift.
  rewrite Hc. simpl. rewrite Hn. reflexivity.
Qed.

Lemma latched_run_returns (c : Config) (its : list Iterate) (s : State) :
  check_if_no_bounds_ s = true ->
  no_bounds_ s = true ->
  run c its s = Ok (tt, s).
Proof.
  intros Hc Hn. induction its as [|it its IH]; [reflexivity|].
  simpl. unfold bind. now rewrite (latched_call_returns c it s Hc Hn).
Qed.

(** C5: if at the first call the four vectors of bound multipliers have
    dimension 0, then after that call and after every later call, whatever
    the iterates, the barrier parameter is [mu_min] and [tau] is [tau_min];
    no later call runs any of the globalization logic: the mode, the
    reference values, the filter, the baselines of the safeguard and the
    info string stay as they were, and the only events of the whole run are
    the two commits of the first call. *)
Theorem no_bounds_fast_path (c : Config) (it0 : Iterate)
    (its : list Iterate) (s : State) :
  check_if_no_bounds_ s = false ->
  dim_z_L it0 = 0%Z -> dim_z_U it0 = 0%Z ->
  dim_v_L it0 = 0%Z -> dim_v_U it0 = 0%Z ->
  exists s' : State,
    run c (it0 :: its) s = Ok (tt, s') /\
    curr_mu s' = mu_min_ c /\ curr_tau s' = tau_min_ c /\
    no_bounds_ s' = true /\ check_if_no_bounds_ s' = true /\
    call_events s s' = [Set_mu (mu_min_ c); Set_tau (tau_min_ c)] /\
    FreeMuMode s' = FreeMuMode s /\
    refs_vals_ s' = refs_vals_ s /\
    filter_ s' = filter_ s /\
    init_dual_inf_ s' = init_dual_inf_ s /\
    init_primal_inf_ s' = init_primal_inf_ s /\
    info_string s' = info_string s.
Proof.
  intros Hc H1 H2 H3 H4.
  exists (no_bounds_state c s). split.
  - simpl. unfold bind.
    rewrite (first_call_without_bounds c it0 s Hc
               (n_bounds_zero it0 H1 H2 H3 H4)).
    now apply latched_run_returns.
  - repeat split.
    unfold call_events, no_bounds_state. simpl.
    rewrite <- app_assoc. apply skipn_length_app.
Qed.

(** ** [NewFixedMu] *)

(** The order of the four clamps as the specification words it: below by
    the safeguard and by [mu_min], then above by the cap and by [mu_max]. *)
Definition NewFixedMu_as_specified (c : Config) (raw safeguard max_ref : Number)
  : Number :=
  Min (Min (Max (Max raw safeguard) (mu_min_ c)) (0.1 * max_ref)) (mu_max_ c).

(** C6, amended: [NewFixedMu] takes the raw proposal (the answer of the
    fixed-mode oracle when there is one, else the average complementarity),
    raises it to the safeguard, caps it by a tenth of [max_ref]
    ([max_ref_val()] under selector 1, [1e20] under selector 2), raises it
    to [mu_min] and caps it by [mu_max], in this order; with
    [mu_min <= mu_max] the result lies in [[mu_min, mu_max]]. *)
Theorem NewFixedMu_clamps (c : Config) (it : Iterate) (s s' : State)
    (max_ref safeguard : Number) :
  (adaptive_globalization_ c = 1%Z /\
   max_ref_val (refs_vals_ s) = Ok max_ref) \/
  (adaptive_globalization_ c = 2%Z /\ max_ref = 1e20) ->
  lower_mu_safeguard c it s = Ok (safeguard, s') ->
  let raw := match fix_mu_oracle_CalculateMu it with
             | Some mu => mu
             | None => curr_avrg_compl it
             end in
  let new_mu :=
    Min (Max (Min (Max raw safeguard) (0.1 * max_ref)) (mu_min_ c))
      (mu_max_ c) in
  NewFixedMu c it s = Ok (new_mu, s') /\
  (mu_min_ c <= mu_max_ c -> mu_min_ c <= new_mu <= mu_max_ c).
Proof.
  intros Hmax Hsafe raw new_mu. split.
  - rewrite NewFixedMu_unfold. unfold fixed_mode_max_ref.
    destruct Hmax as [[Hsel Hm] | [Hsel ->]]; rewrite Hsel; simpl.
    + rewrite Hm. simpl. rewrite Hsafe. reflexivity.
    + rewrite Hsafe. reflexivity.
  - intros Hcfg. apply capped_within; [exact Hcfg | apply Max_ge_r].
Qed.

(** ** [InitializeImpl] and the selector *)

(** The options in which [adaptive_globalization] alone is supplied. *)
Definition only_adaptive_globalization (ivalue : Index) : OptionsList := {|
  GetNumericValue := fun _ => None;
  GetIntegerValue := fun name =>
    if String.eqb name "adaptive_globalization" then Some ivalue else None
|}.

(** C8: the claim says that a supplied [adaptive_globalization] outside
    {1, 2} makes the initialization fail with [OPTION_OUT_OF_RANGE].  The
    source checks every numeric option with [ASSERT_EXCEPTION] and stores
    this one unchecked: whatever integer is supplied, [InitializeImpl]
    returns true and the selector holds that integer. *)
Theorem adaptive_globalization_is_not_checked (ivalue : Index)
    (eps_tol : Number) (self : Config * State) :
  exists (c : Config) (s : State),
    InitializeImpl (only_adaptive_globalization ivalue) eps_tol true None self
    = Ok (true, (c, s)) /\
    adaptive_globalization_ c = ivalue.
Proof.
  unfold InitializeImpl. simpl. do 2 eexists. split; reflexivity.
Qed.

Ltac next_option :=
  lazymatch goal with
  | |- bindR ?r _ = Ok _ -> _ =>
      let E := fresh "E" in
      destruct r as [?|] eqn:E; cbn [bindR]; [|discriminate]
  end.

Ltac supplied E :=
  let v := fresh "v" in
  let Hv := fresh "Hv" in
  let B := fresh "B" in
  intros v Hv; rewrite Hv in E; unfold ASSERT_EXCEPTION in E;
  lazymatch type of E with
  | bindR (if ?b then _ else _) _ = _ =>
      destruct b eqn:B; cbn [bindR] in E; [|discriminate E];
      injection E as <-;
      repeat match goal with
             | H : (_ && _)%bool = true |- _ => apply andb_prop in H; destruct H
             | H : Qlt_bool ?a ?b = true |- _ =>
                 destruct (Qlt_bool_spec a b); [|discriminate H]; clear H
             | H : Qle_bool ?a ?b = true |- _ => apply Qle_bool_iff in H
             | H : (_ >=? _)%Z = true |- _ => apply Z.geb_le in H
             end;
      simpl; repeat split; auto
  end.

(** X24: the other options are checked: a call that returns true has found
    every supplied numeric value, and the supplied capacity of the
    reference list, within its range, and stores what was supplied. *)
Lemma InitializeImpl_checks_ranges (options : OptionsList) (eps_tol : Number)
    (free_init : bool) (fix_init : option bool) (self : Config * State)
    (c : Config) (s : State) :
  InitializeImpl options eps_tol free_init fix_init self = Ok (true, (c, s)) ->
  (forall v, GetNumericValue options "mu_max" = Some v ->
     0 < v /\ mu_max_ c = v) /\
  (forall v, GetNumericValue options "mu_min" = Some v ->
     0 < v /\ v < mu_max_ c /\ mu_min_ c = v) /\
  (forall v, GetNumericValue options "tau_min" = Some v ->
     0 < v /\ v < 1 /\ tau_min_ c = v) /\
  (forall v, GetNumericValue options "tau_max" = Some v ->
     0 < v /\ v <= 1 /\ tau_max_ c = v) /\
  (forall v, GetNumericValue options "mu_safeguard_exp" = Some v ->
     0 <= v /\ mu_safeguard_exp_ c = v) /\
  (forall v, GetNumericValue options "mu_safeguard_factor" = Some v ->
     0 <= v /\ mu_safeguard_factor_ c = v) /\
  (forall v, GetNumericValue options "nonmonotone_mu_refs_redfact" = Some v ->
     0 < v /\ v < 1 /\ refs_red_fact_ c = v) /\
  (forall v, GetIntegerValue options "nonmonotone_mu_max_refs" = Some v ->
     (0 <= v)%Z /\ num_refs_max_ c = v) /\
  (forall v, GetNumericValue options "kappa_epsilon" = Some v ->
     0 < v /\ kappa_epsilon_ c = v) /\
  (forall v, GetNumericValue options "kappa_mu" = Some v ->
     0 < v /\ v < 1 /\ kappa_mu_ c = v) /\
  (forall v, GetNumericValue options "theta_mu" = Some v ->
     1 < v /\ v < 2 /\ theta_mu_ c = v) /\
  (forall v, GetIntegerValue options "adaptive_globalization" = Some v ->
     adaptive_globalization_ c = v).
Proof.
  unfold InitializeImpl.
  do 8 next_option. cbv zeta.
  destruct free_init; cbn [negb]; [|discriminate].
  intros H.
  assert (H' :
    (kappa_epsilon <~
       match GetNumericValue options "kappa_epsilon" with
       | Some value =>
           _ <~ ASSERT_EXCEPTION (Qlt_bool 0 value) "kappa_epsilon"
                  "This value must be larger than 0." ;;
           Ok value
       | None => Ok 10.0
       end ;;
     kappa_mu <~
       match GetNumericValue options "kappa_mu" with
       | Some value =>
           _ <~ ASSERT_EXCEPTION (Qlt_bool 0 value && Qlt_bool value 1)
                  "kappa_mu" "This value must be between 0 and 1." ;;
           Ok value
       | None => Ok 0.2
       end ;;
     theta_mu <~
       match GetNumericValue options "theta_mu" with
       | Some value =>
           _ <~ ASSERT_EXCEPTION (Qlt_bool 1 value && Qlt_bool value 2)
                  "theta_mu" "This value must be between 1 and 2." ;;
           Ok value
       | None => Ok 1.5
       end ;;
     Ok (a, a0, a1, a2, a3, a4, a5, a6, kappa_epsilon, kappa_mu, theta_mu,
         match GetIntegerValue options "adaptive_globalization" with
         | Some ivalue => ivalue
         | None => 1%Z
         end))
    = Ok (mu_max_ c, mu_min_ c, tau_min_ c, tau_max_ c, mu_safeguard_exp_ c,
          mu_safeguard_factor_ c, refs_red_fact_ c, num_refs_max_ c,
          kappa_epsilon_ c, kappa_mu_ c, theta_mu_ c,
          adaptive_globalization_ c)).
  { destruct fix_init as [[|]|]; try discriminate H; revert H;
      do 3 next_option; intros H; injection H as <- <-; reflexivity. }
  clear H. revert H'. do 3 next_option.
  intros H. injection H as <- <- <- <- <- <- <- <- <- <- <- <-.
  repeat apply conj;
    [ supplied E | supplied E0 | supplied E1 | supplied E2 | supplied E3
    | supplied E4 | supplied E5 | supplied E6 | supplied E7 | supplied E8
    | supplied E9
    | intros v Hv; rewrite Hv; reflexivity ].
Qed.

(** With a selector that is neither 1 nor 2 the check of the progress takes
    the [default] branch of its [switch] and answers true. *)
Lemma unknown_selector_is_sufficient (c : Config) (it : Iterate) (s : State) :
  adaptive_globalization_ c <> 1%Z ->
  adaptive_globalization_ c <> 2%Z ->
  CheckSufficientProgress c it s = Ok true.
Proof.
  intros H1 H2. unfold CheckSufficientProgress.
  destruct (mu_never_fix_ c); [reflexivity|].
  destruct (Z.eqb_spec (adaptive_globalization_ c) 1); [contradiction|].
  destruct (Z.eqb_spec (adaptive_globalization_ c) 2); [contradiction|].
  reflexivity.
Qed.

End Properties.

(** ** Examples *)

Section Examples.

#[local] Existing Instance example_Externals.

(** A configuration within the declared ranges. *)
Definition example_Config : Config := {|
  mu_max_ := 100;
  mu_min_ := 1e-9;
  tau_min_ := 0.5;
  tau_max_ := 0.99;
  mu_safeguard_exp_ := 0;
  mu_safeguard_factor_ := 0;
  refs_red_fact_ := 0.9;
  num_refs_max_ := 2%Z;
  mu_never_fix_ := false;
  adaptive_globalization_ := 1%Z;
  kappa_epsilon_ := 10;
  kappa_mu_ := 0.2;
  theta_mu_ := 1.5
|}.

(** The state as [InitializeImpl] leaves it. *)
Definition example_initial : @State example_Externals := {|
  init_dual_inf_ := -1;
  init_primal_inf_ := -1;
  refs_vals_ := [];
  check_if_no_bounds_ := false;
  no_bounds_ := false;
  filter_ := ([] : list (Number * Number * Index));
  curr_mu := 0.1;
  curr_tau := 0.99;
  FreeMuMode := true;
  info_string := "";
  trace := []
|}.

(** An iterate with two bounds; its scaled norm is 0.3 + 0.3 + 0.1. *)
Definition example_Iterate : Iterate := {|
  dim_x := 2%Z; dim_s := 0%Z;
  dim_y_c := 1%Z; dim_y_d := 0%Z;
  dim_z_L := 2%Z; dim_z_U := 0%Z;
  dim_v_L := 0%Z; dim_v_U := 0%Z;
  curr_dual_infeasibility := 0.6;
  curr_primal_infeasibility := 0.3;
  curr_complementarity := 0.2;
  curr_f := 1;
  curr_constraint_violation := 0.3;
  curr_barrier_error := 0.5;
  curr_avrg_compl := 1;
  epsilon_tol := 1e-8;
  iter_count := 0%Z;
  free_mu_oracle_CalculateMu := 0.05;
  fix_mu_oracle_CalculateMu := None
|}.

(** The same iterate with smaller residuals: scaled norm 0.1 + 0.1 + 0.1. *)
Definition example_Iterate_close : Iterate := {|
  dim_x := 2%Z; dim_s := 0%Z;
  dim_y_c := 1%Z; dim_y_d := 0%Z;
  dim_z_L := 2%Z; dim_z_U := 0%Z;
  dim_v_L := 0%Z; dim_v_U := 0%Z;
  curr_dual_infeasibility := 0.2;
  curr_primal_infeasibility := 0.1;
  curr_complementarity := 0.2;
  curr_f := 1;
  curr_constraint_violation := 0.1;
  curr_barrier_error := 0.5;
  curr_avrg_compl := 1;
  epsilon_tol := 1e-8;
  iter_count := 1%Z;
  free_mu_oracle_CalculateMu := 0.05;
  fix_mu_oracle_CalculateMu := None
|}.

(** An iterate of a problem without bounds. *)
Definition example_Iterate_no_bounds : Iterate := {|
  dim_x := 2%Z; dim_s := 0%Z;
  dim_y_c := 1%Z; dim_y_d := 0%Z;
  dim_z_L := 0%Z; dim_z_U := 0%Z;
  dim_v_L := 0%Z; dim_v_U := 0%Z;
  curr_dual_infeasibility := 0.6;
  curr_primal_infeasibility := 0.3;
  curr_complementarity := 0;
  curr_f := 1;
  curr_constraint_violation := 0.3;
  curr_barrier_error := 0.5;
  curr_avrg_compl := 0;
  epsilon_tol := 1e-8;
  iter_count := 0%Z;
  free_mu_oracle_CalculateMu := 0.05;
  fix_mu_oracle_CalculateMu := None
|}.

(** An iterate without variables: dim x + dim s = 0. *)
Definition example_Iterate_no_variables : Iterate := {|
  dim_x := 0%Z; dim_s := 0%Z;
  dim_y_c := 0%Z; dim_y_d := 0%Z;
  dim_z_L := 0%Z; dim_z_U := 0%Z;
  dim_v_L := 0%Z; dim_v_U := 0%Z;
  curr_dual_infeasibility := 0;
  curr_primal_infeasibility := 0;
  curr_complementarity := 0;
  curr_f := 0;
  curr_constraint_violation := 0;
  curr_barrier_error := 0;
  curr_avrg_compl := 0;
  epsilon_tol := 1e-8;
  iter_count := 0%Z;
  free_mu_oracle_CalculateMu := 0.05;
  fix_mu_oracle_CalculateMu := None
|}.

(** The fixed mode with a full history and the barrier parameter 1. *)
Definition example_fixed : @State example_Externals := {|
  init_dual_inf_ := 1;
  init_primal_inf_ := 1;
  refs_vals_ := [0.5; 0.4];
  check_if_no_bounds_ := true;
  no_bounds_ := false;
  filter_ := ([] : list (Number * Number * Index));
  curr_mu := 1;
  curr_tau := 0.5;
  FreeMuMode := false;
  info_string := "";
  trace := []
|}.

(** The state after one call on [example_initial]. *)
Definition example_after_call : @State example_Externals :=
  Eval vm_compute in
    match UpdateBarrierParameter example_Config example_Iterate
            example_initial with
    | Ok (_, s') => s'
    | Err _ => example_initial
    end.

Definition example_commit : Number * Number :=
  Eval vm_compute in
    hd (0, 0) (commits (call_events example_initial example_after_call)).

Definition example_committed_mu : Number :=
  Eval vm_compute in fst example_commit.

Lemma example_call :
  UpdateBarrierParameter example_Config example_Iterate example_initial
  = Ok (tt, example_after_call).
Proof. vm_compute. reflexivity. Qed.

(** *** C1 *)

Lemma committed_tau_is_Compute_tau_witness :
  snd example_commit = Compute_tau example_Config (fst example_commit) \/
  (check_if_no_bounds_ example_initial = false /\
   n_bounds example_Iterate = Ok 0%Z /\
   fst example_commit = mu_min_ example_Config /\
   snd example_commit = tau_min_ example_Config) \/
  (FreeMuMode example_initial = false /\
   CheckSufficientProgress example_Config example_Iterate example_initial
   = Ok false /\
   curr_barrier_error example_Iterate
   <= kappa_epsilon_ example_Config * curr_mu example_initial).
Proof.
  apply (committed_tau_is_Compute_tau example_Config example_Iterate
           example_initial example_after_call).
  - vm_compute. reflexivity.
  - vm_compute. left. reflexivity.
Defined.

(** The claim fails on the first call of a problem without bounds: the
    pair committed is [(mu_min, tau_min)], and [tau_min] = 0.5 is not
    [Compute_tau mu_min] = 0.99. *)
Lemma no_bounds_pair_is_not_Compute_tau :
  exists s' : State,
    UpdateBarrierParameter example_Config example_Iterate_no_bounds
      example_initial = Ok (tt, s') /\
    In (mu_min_ example_Config, tau_min_ example_Config)
      (commits (call_events example_initial s')) /\
    ~ tau_min_ example_Config
      == Compute_tau example_Config (mu_min_ example_Config).
Proof.
  eexists. split; [vm_compute; reflexivity|]. split.
  - vm_compute. left. reflexivity.
  - vm_compute. discriminate.
Qed.

(** The pair that the fixed mode commits when it reduces [mu] from 1 to
    0.2: its [tau] is [Compute_tau] of the previous [mu], 0.5, and not of
    the committed one, 0.8. *)
Lemma fixed_mode_reduction_example :
  exists (s' : State) (mu tau : Number),
    UpdateBarrierParameter example_Config example_Iterate example_fixed
    = Ok (tt, s') /\
    commits (call_events example_fixed s') = [(mu, tau)] /\
    mu == 0.2 /\
    tau == Compute_tau example_Config (curr_mu example_fixed) /\
    tau == 0.5 /\
    Compute_tau example_Config mu == 0.8.
Proof.
  do 3 eexists. split; [vm_compute; reflexivity|].
  split; [vm_compute; reflexivity|].
  repeat split; vm_compute; reflexivity.
Qed.

(** *** C2 *)

Lemma committed_mu_bounds_witness :
  mu_min_ example_Config <= example_committed_mu <= mu_max_ example_Config \/
  (FreeMuMode example_initial = false /\
   CheckSufficientProgress example_Config example_Iterate example_initial
   = Ok false /\
   curr_barrier_error example_Iterate
   <= kappa_epsilon_ example_Config * curr_mu example_initial /\
   epsilon_tol example_Iterate / 10 <= example_committed_mu /\
   (mu_min_ example_Config <= epsilon_tol example_Iterate / 10 ->
    epsilon_tol example_Iterate / 10 <= mu_max_ example_Config ->
    0 <= kappa_mu_ example_Config <= 1 ->
    0 <= curr_mu example_initial <= mu_max_ example_Config ->
    mu_min_ example_Config <= example_committed_mu
    <= mu_max_ example_Config)).
Proof.
  apply (committed_mu_bounds example_Config example_Iterate example_initial
           example_after_call).
  - vm_compute. discriminate.
  - vm_compute. reflexivity.
  - vm_compute. left. reflexivity.
Defined.

(** A configuration within the declared ranges whose [mu_min] is above
    [epsilon_tol / 10]. *)
Definition example_Config_large_mu_min : Config := {|
  mu_max_ := 100;
  mu_min_ := 0.5;
  tau_min_ := 0.5;
  tau_max_ := 0.99;
  mu_safeguard_exp_ := 0;
  mu_safeguard_factor_ := 0;
  refs_red_fact_ := 0.9;
  num_refs_max_ := 2%Z;
  mu_never_fix_ := false;
  adaptive_globalization_ := 1%Z;
  kappa_epsilon_ := 10;
  kappa_mu_ := 0.2;
  theta_mu_ := 1.5
|}.

(** The claim fails when the fixed mode reduces [mu]: from 1 the call
    commits 0.2, below [mu_min] = 0.5. *)
Lemma fixed_mode_reduction_below_mu_min :
  exists (s' : State) (mu : Number),
    UpdateBarrierParameter example_Config_large_mu_min example_Iterate
      example_fixed = Ok (tt, s') /\
    In (Set_mu mu) (call_events example_fixed s') /\
    curr_mu s' = mu /\
    mu == 0.2 /\
    mu < mu_min_ example_Config_large_mu_min.
Proof.
  do 2 eexists. split; [vm_compute; reflexivity|].
  split; [vm_compute; left; reflexivity|].
  repeat split; vm_compute; reflexivity.
Qed.

(** *** C3 *)

(** The history of the specification's example: two values, full. *)
Definition example_full_history : State := {|
  init_dual_inf_ := 1;
  init_primal_inf_ := 1;
  refs_vals_ := [0.50; 0.40];
  check_if_no_bounds_ := true;
  no_bounds_ := false;
  filter_ := ([] : list (Number * Number * Index));
  curr_mu := 0.1;
  curr_tau := 0.9;
  FreeMuMode := true;
  info_string := "";
  trace := []
|}.

Definition example_norm_close : Number :=
  Eval vm_compute in
    match curr_norm_pd_system example_Iterate_close with
    | Ok e => e
    | Err _ => 0
    end.

Lemma CheckSufficientProgress_selector_1_witness :
  CheckSufficientProgress example_Config example_Iterate example_initial
  = Ok true /\
  CheckSufficientProgress example_Config example_Iterate_close
    example_full_history = Ok true.
Proof.
  split.
  - apply (CheckSufficientProgress_selector_1 example_Config example_Iterate
             example_initial eq_refl eq_refl).
    vm_compute. reflexivity.
  - destruct (CheckSufficientProgress_selector_1 example_Config
                example_Iterate_close example_full_history eq_refl eq_refl)
      as [_ H].
    destruct (H example_norm_close) as (b & Hb & Hiff).
    + vm_compute. discriminate.
    + vm_compute. reflexivity.
    + rewrite Hb. f_equal. apply Hiff. exists 0.50. split.
      * left. reflexivity.
      * vm_compute. discriminate.
Defined.

(** The two examples of the specification: with the history [0.50, 0.40]
    and the factor 0.9, the residual 0.30 is sufficient progress and the
    residual 0.70 is not. *)
Lemma CheckSufficientProgress_examples :
  CheckSufficientProgress example_Config example_Iterate_close
    example_full_history = Ok true /\
  CheckSufficientProgress example_Config example_Iterate
    example_full_history = Ok false.
Proof. split; vm_compute; reflexivity. Qed.

(** *** C4 *)

Lemma commit_is_followed_by_Reset_witness :
  reset_follows (call_events example_initial example_after_call) = true \/
  (check_if_no_bounds_ example_initial = false /\
   n_bounds example_Iterate = Ok 0%Z /\
   call_events example_initial example_after_call
   = [Set_mu (mu_min_ example_Config); Set_tau (tau_min_ example_Config)]).
Proof.
  apply (commit_is_followed_by_Reset example_Config example_Iterate
           example_initial example_after_call).
  vm_compute. reflexivity.
Defined.

(** The claim fails on the first call of a problem without bounds: the call
    changes [mu] and [tau] in the shared data and signals no reset. *)
Lemma no_bounds_commit_without_Reset :
  exists s' : State,
    UpdateBarrierParameter example_Config example_Iterate_no_bounds
      example_initial = Ok (tt, s') /\
    call_events example_initial s'
    = [Set_mu (mu_min_ example_Config); Set_tau (tau_min_ example_Config)] /\
    ~ curr_mu s' == curr_mu example_initial /\
    ~ curr_tau s' == curr_tau example_initial /\
    existsb is_Reset (call_events example_initial s') = false.
Proof.
  eexists. split; [vm_compute; reflexivity|].
  split; [vm_compute; reflexivity|].
  split; [vm_compute; discriminate|].
  split; [vm_compute; discriminate|].
  vm_compute. reflexivity.
Qed.

(** *** C5 *)

Lemma no_bounds_fast_path_witness :
  exists s' : State,
    run example_Config
      [example_Iterate_no_bounds; example_Iterate; example_Iterate_close]
      example_initial = Ok (tt, s') /\
    curr_mu s' = mu_min_ example_Config /\
    curr_tau s' = tau_min_ example_Config /\
    no_bounds_ s' = true /\ check_if_no_bounds_ s' = true /\
    call_events example_initial s'
    = [Set_mu (mu_min_ example_Config); Set_tau (tau_min_ example_Config)] /\
    FreeMuMode s' = FreeMuMode example_initial /\
    refs_vals_ s' = refs_vals_ example_initial /\
    filter_ s' = filter_ example_initial /\
    init_dual_inf_ s' = init_dual_inf_ example_initial /\
    init_primal_inf_ s' = init_primal_inf_ example_initial /\
    info_string s' = info_string example_initial.
Proof.
  apply (no_bounds_fast_path example_Config example_Iterate_no_bounds
           [example_Iterate; example_Iterate_close] example_initial);
    reflexivity.
Defined.

(** *** C6 *)

(** A full history of small residuals: a tenth of the largest is below
    [mu_min]. *)
Definition example_small_history : State := {|
  init_dual_inf_ := 1;
  init_primal_inf_ := 1;
  refs_vals_ := [1e-9; 2e-9];
  check_if_no_bounds_ := true;
  no_bounds_ := false;
  filter_ := ([] : list (Number * Number * Index));
  curr_mu := 0.1;
  curr_tau := 0.9;
  FreeMuMode := true;
  info_string := "";
  trace := []
|}.

Definition example_safeguard : Number :=
  Eval vm_compute in
    match lower_mu_safeguard example_Config example_Iterate
            example_full_history with
    | Ok (v, _) => v
    | Err _ => 0
    end.

Lemma NewFixedMu_clamps_witness :
  NewFixedMu example_Config example_Iterate example_full_history
  = Ok (Min (Max (Min (Max (curr_avrg_compl example_Iterate)
                         example_safeguard) (0.1 * 0.50))
               (mu_min_ example_Config)) (mu_max_ example_Config),
        example_full_history) /\
  (mu_min_ example_Config <= mu_max_ example_Config ->
   mu_min_ example_Config
   <= Min (Max (Min (Max (curr_avrg_compl example_Iterate)
                       example_safeguard) (0.1 * 0.50))
             (mu_min_ example_Config)) (mu_max_ example_Config)
   <= mu_max_ example_Config).
Proof.
  apply (NewFixedMu_clamps example_Config example_Iterate
           example_full_history example_full_history 0.50
           example_safeguard).
  - left. split; reflexivity.
  - vm_compute. reflexivity.
Defined.

(** The order of the clamps matters when the cap is below [mu_min]: with
    the raw proposal 1, the safeguard 0, the cap 2e-10 and
    [mu_min] = 1e-9, the source returns [mu_min] where the order of the
    specification gives the cap. *)
Lemma NewFixedMu_is_not_as_specified :
  exists (mu safeguard max_ref : Number) (s' : State),
    NewFixedMu example_Config example_Iterate example_small_history
    = Ok (mu, s') /\
    lower_mu_safeguard example_Config example_Iterate example_small_history
    = Ok (safeguard, s') /\
    max_ref_val (refs_vals_ example_small_history) = Ok max_ref /\
    mu == 1e-9 /\
    NewFixedMu_as_specified example_Config (curr_avrg_compl example_Iterate)
      safeguard max_ref == 2e-10 /\
    ~ mu == NewFixedMu_as_specified example_Config
             (curr_avrg_compl example_Iterate) safeguard max_ref.
Proof.
  do 4 eexists. split; [vm_compute; reflexivity|].
  split; [vm_compute; reflexivity|].
  split; [vm_compute; reflexivity|].
  split; [vm_compute; reflexivity|].
  split; [vm_compute; reflexivity|].
  vm_compute. discriminate.
Qed.

(** *** C9 *)

Definition example_norm : Number :=
  Eval vm_compute in
    match curr_norm_pd_system example_Iterate with
    | Ok e => e
    | Err _ => 0
    end.

Lemma reference_history_fifo_witness :
  exists s' : State,
    remember_all example_Config
      [example_Iterate; example_Iterate_close; example_Iterate_close]
      example_initial = Ok (tt, s') /\
    refs_vals_ s'
    = last_n (Z.to_nat (num_refs_max_ example_Config))
        [example_norm; example_norm_close; example_norm_close] /\
    (Z.of_nat (List.length (refs_vals_ s')) <= num_refs_max_ example_Config)%Z /\
    (forall front newest,
       [example_norm; example_norm_close; example_norm_close]
       = (front ++ [newest])%list ->
       exists kept, refs_vals_ s' = (kept ++ [newest])%list) /\
    (forall oldest later,
       [example_norm; example_norm_close; example_norm_close]
       = oldest :: later ->
       Z.of_nat (List.length later) = num_refs_max_ example_Config ->
       refs_vals_ s' = later).
Proof.
  apply (reference_history_fifo example_Config
           [example_Iterate; example_Iterate_close; example_Iterate_close]
           [example_norm; example_norm_close; example_norm_close]
           example_initial).
  - reflexivity.
  - vm_compute. discriminate.
  - reflexivity.
  - repeat constructor.
Defined.

(** The capacity 0, which [InitializeImpl] accepts. *)
Definition example_Config_no_refs : Config := {|
  mu_max_ := 100;
  mu_min_ := 1e-9;
  tau_min_ := 0.5;
  tau_max_ := 0.99;
  mu_safeguard_exp_ := 0;
  mu_safeguard_factor_ := 0;
  refs_red_fact_ := 0.9;
  num_refs_max_ := 0%Z;
  mu_never_fix_ := false;
  adaptive_globalization_ := 1%Z;
  kappa_epsilon_ := 10;
  kappa_mu_ := 0.2;
  theta_mu_ := 1.5
|}.

(** The claim fails for [num_refs_max] = 0: the first insertion pops the
    front of the empty list, which is undefined; and no history can both
    have a length within 0 and hold the newest value. *)
Lemma zero_capacity_history :
  RememberCurrentPointAsAccepted example_Config_no_refs example_Iterate
    example_initial = Err EmptyList /\
  ~ exists s' : State,
      RememberCurrentPointAsAccepted example_Config_no_refs example_Iterate
        example_initial = Ok (tt, s') /\
      (Z.of_nat (List.length (refs_vals_ s'))
       <= num_refs_max_ example_Config_no_refs)%Z /\
      In example_norm (refs_vals_ s').
Proof.
  split; [vm_compute; reflexivity|].
  intros (s' & H & _). vm_compute in H. discriminate H.
Qed.

(** *** C10 *)

(** An iterate far from feasibility: averaged dual infeasibility 3,
    averaged primal infeasibility 2. *)
Definition example_Iterate_far : Iterate := {|
  dim_x := 2%Z; dim_s := 0%Z;
  dim_y_c := 1%Z; dim_y_d := 0%Z;
  dim_z_L := 2%Z; dim_z_U := 0%Z;
  dim_v_L := 0%Z; dim_v_U := 0%Z;
  curr_dual_infeasibility := 6;
  curr_primal_infeasibility := 2;
  curr_complementarity := 0.2;
  curr_f := 1;
  curr_constraint_violation := 2;
  curr_barrier_error := 8;
  curr_avrg_compl := 1;
  epsilon_tol := 1e-8;
  iter_count := 0%Z;
  free_mu_oracle_CalculateMu := 0.05;
  fix_mu_oracle_CalculateMu := None
|}.

Definition example_avrg_dual_inf : Number :=
  Eval vm_compute in
    match avrg_dual_inf example_Iterate_far with Ok d => d | Err _ => 0 end.

Definition example_avrg_primal_inf : Number :=
  Eval vm_compute in
    match avrg_primal_inf example_Iterate_far with Ok p => p | Err _ => 0 end.

(** The state after the first point was accepted: one reference value, the
    baselines still unset. *)
Definition example_unset : State := {|
  init_dual_inf_ := -1;
  init_primal_inf_ := -1;
  refs_vals_ := [5.1];
  check_if_no_bounds_ := true;
  no_bounds_ := false;
  filter_ := ([] : list (Number * Number * Index));
  curr_mu := 0.1;
  curr_tau := 0.9;
  FreeMuMode := true;
  info_string := "";
  trace := []
|}.

Lemma safeguard_baselines_latch_once_witness :
  exists (v : Number) (s' : State),
    lower_mu_safeguard example_Config example_Iterate_far example_unset
    = Ok (v, s') /\
    (init_dual_inf_ example_unset < 0 ->
     init_dual_inf_ s' = Max 1 example_avrg_dual_inf) /\
    (1 <= init_dual_inf_ example_unset ->
     init_dual_inf_ s' = init_dual_inf_ example_unset) /\
    (init_primal_inf_ example_unset < 0 ->
     init_primal_inf_ s' = Max 1 example_avrg_primal_inf) /\
    (1 <= init_primal_inf_ example_unset ->
     init_primal_inf_ s' = init_primal_inf_ example_unset) /\
    1 <= init_dual_inf_ s' /\ 1 <= init_primal_inf_ s'.
Proof.
  apply (safeguard_baselines_latch_once example_Config example_Iterate_far
           example_unset example_avrg_dual_inf example_avrg_primal_inf).
  - reflexivity.
  - reflexivity.
  - intros _. discriminate.
  - left. vm_compute. reflexivity.
  - left. vm_compute. reflexivity.
Defined.

(** Two calls with different readings: the first latches the baselines 3
    and 2, the second, on an iterate with the averages 0.1 and 0.1, leaves
    them. *)
Lemma safeguard_baselines_example :
  exists (v1 v2 : Number) (s1 s2 : State),
    lower_mu_safeguard example_Config example_Iterate_far example_unset
    = Ok (v1, s1) /\
    lower_mu_safeguard example_Config example_Iterate_close s1
    = Ok (v2, s2) /\
    init_dual_inf_ s1 == 3 /\ init_primal_inf_ s1 == 2 /\
    init_dual_inf_ s2 = init_dual_inf_ s1 /\
    init_primal_inf_ s2 = init_primal_inf_ s1.
Proof.
  do 4 eexists. split; [vm_compute; reflexivity|].
  split; [vm_compute; reflexivity|].
  repeat split; vm_compute; reflexivity.
Qed.

End Examples.

(** * Further properties of the member functions *)

Section Blocks.
Context {Ext : Externals}.

(** ** The state each block leaves *)

(** The commit of a pair and the reset that follows it. *)
Definition committed (mu tau : Number) (s : State) : State :=
  emit Reset (emit (Set_tau tau) (emit (Set_mu mu) s)).

Lemma Remember_inv (c : Config) (it : Iterate) (s s' : State) :
  RememberCurrentPointAsAccepted c it s = Ok (tt, s') ->
  (adaptive_globalization_ c = 1%Z /\
   exists e,
     curr_norm_pd_system it = Ok e /\
     s' = set_refs_vals
            ((if (Z.of_nat (List.length (refs_vals_ s)) >=? num_refs_max_ c)%Z
              then tl (refs_vals_ s) else refs_vals_ s) ++ [e])%list s /\
     ((Z.of_nat (List.length (refs_vals_ s)) >= num_refs_max_ c)%Z ->
      refs_vals_ s <> [])) \/
  (adaptive_globalization_ c = 2%Z /\
   s' = set_filter
          (AddEntry (filter_ s)
             (curr_f it - 1e-5 * curr_constraint_violation it)
             (curr_constraint_violation it
              - 1e-5 * curr_constraint_violation it)
             (iter_count it)) s) \/
  (adaptive_globalization_ c <> 1%Z /\ adaptive_globalization_ c <> 2%Z /\
   s' = s).
Proof.
  unfold RememberCurrentPointAsAccepted, bind, lift, gets, modify, ret.
  destruct (Z.eqb_spec (adaptive_globalization_ c) 1) as [H1|H1].
  - destruct (curr_norm_pd_system it) as [e|]; [|discriminate].
    destruct (Z.geb_spec (Z.of_nat (List.length (refs_vals_ s)))
                (num_refs_max_ c)) as [Hlen|Hlen].
    + destruct (refs_vals_ s) as [|r refs] eqn:Er; simpl; [discriminate|].
      intros H; injection H as <-. left. split; [exact H1|].
      exists e. repeat split. intros _. discriminate.
    + intros H; injection H as <-. left. split; [exact H1|].
      exists e. repeat split. intros H. lia.
  - destruct (Z.eqb_spec (adaptive_globalization_ c) 2) as [H2|H2];
      intros H; injection H as <-.
    + right; left. now split.
    + right; right. now repeat split.
Qed.

Lemma mode_transition_state (c : Config) (it : Iterate) (s s' : State) :
  mode_transition c it s = Ok (tt, s') ->
  exists b,
    CheckSufficientProgress c it s = Ok b /\
    ((b = true /\ FreeMuMode s = true /\
      RememberCurrentPointAsAccepted c it s = Ok (tt, s')) \/
     (b = true /\ FreeMuMode s = false /\
      RememberCurrentPointAsAccepted c it (emit (SetFreeMuMode true) s)
      = Ok (tt, s')) \/
     (b = false /\ FreeMuMode s = true /\
      exists mu s1,
        NewFixedMu c it (emit (SetFreeMuMode false) s) = Ok (mu, s1) /\
        s' = committed mu (Compute_tau c mu) s1) \/
     (b = false /\ FreeMuMode s = false /\
      curr_barrier_error it <= kappa_epsilon_ c * curr_mu s /\
      s' = committed (reduced_mu c it s) (Compute_tau c (curr_mu s)) s) \/
     (b = false /\ FreeMuMode s = false /\
      ~ curr_barrier_error it <= kappa_epsilon_ c * curr_mu s /\
      s' = s)).
Proof.
  unfold mode_transition, bind, gets, call, modify, ret, lift.
  destruct (FreeMuMode s) eqn:EF; cbn [negb];
    destruct (CheckSufficientProgress c it s) as [[|]|] eqn:EC;
    try discriminate.
  - intros H. exists true. split; [reflexivity|]. left.
    destruct (RememberCurrentPointAsAccepted c it s) as [[[] s1]|];
      [|discriminate]. now injection H as <-.
  - destruct (NewFixedMu c it (emit (SetFreeMuMode false) s))
      as [[mu s1]|] eqn:EN; [|discriminate].
    intros H; injection H as <-. exists false. split; [reflexivity|].
    right; right; left. repeat split. now exists mu, s1.
  - intros H. exists true. split; [reflexivity|]. right; left.
    destruct (RememberCurrentPointAsAccepted c it
                (emit (SetFreeMuMode true) s)) as [[[] s1]|];
      [|discriminate]. now injection H as <-.
  - destruct (Qle_bool_spec (curr_barrier_error it)
                (kappa_epsilon_ c * curr_mu s)) as [Hle|Hgt];
      intros H; injection H as <-; exists false; (split; [reflexivity|]).
    + right; right; right; left. now repeat split.
    + right; right; right; right. now repeat split.
Qed.

Lemma free_mu_phase_state (c : Config) (it : Iterate) (s s' : State) :
  free_mu_phase c it s = Ok (tt, s') ->
  (FreeMuMode s = true /\
   exists lsg s1,
     lower_mu_safeguard c it s = Ok (lsg, s1) /\
     s' = committed
            (Min (Max lsg (Max (free_mu_oracle_CalculateMu it) (mu_min_ c)))
               (mu_max_ c))
            (Compute_tau c
               (Min (Max lsg
                       (Max (free_mu_oracle_CalculateMu it) (mu_min_ c)))
                  (mu_max_ c)))
            (if Qlt_bool (Max (free_mu_oracle_CalculateMu it) (mu_min_ c)) lsg
             then emit (Append_info_string "m") s1 else s1)) \/
  (FreeMuMode s = false /\ s' = emit (Append_info_string "F") s).
Proof.
  unfold free_mu_phase, bind, gets, call, modify, ret.
  destruct (FreeMuMode s) eqn:EF.
  - destruct (lower_mu_safeguard c it s) as [[lsg s1]|] eqn:EL; [|discriminate].
    intros H. left. split; [reflexivity|]. exists lsg, s1.
    split; [reflexivity|].
    set (mu0 := Max (free_mu_oracle_CalculateMu it) (mu_min_ c)) in *.
    unfold Max. destruct (Qlt_bool mu0 lsg); now injection H as <-.
  - intros H; injection H as <-. now right.
Qed.

Lemma set_check_checked (s : State) :
  check_if_no_bounds_ s = true -> set_check_if_no_bounds true s = s.
Proof. destruct s; simpl. now intros ->. Qed.

Lemma UpdateBarrierParameter_cases (c : Config) (it : Iterate) (s s' : State) :
  UpdateBarrierParameter c it s = Ok (tt, s') ->
  (check_if_no_bounds_ s = false /\ n_bounds it = Ok 0%Z /\
   s' = no_bounds_state c s) \/
  (no_bounds_ s = true /\ s' = set_check_if_no_bounds true s) \/
  (no_bounds_ s = false /\
   (check_if_no_bounds_ s = false ->
    exists n, n_bounds it = Ok n /\ n <> 0%Z) /\
   exists s1,
     mode_transition c it (set_check_if_no_bounds true s) = Ok (tt, s1) /\
     free_mu_phase c it s1 = Ok (tt, s')).
Proof.
  unfold UpdateBarrierParameter. unfold bind at 1.
  destruct (check_no_bounds c it s) as [[[] s0]|] eqn:E0; [|discriminate].
  unfold bind at 1, gets.
  destruct (check_no_bounds_cases _ _ _ _ E0)
    as [(Hc & ->) | [(Hc & Hn & ->) | (Hc & ->)]].
  - rewrite <- (set_check_checked s Hc) at 2 3.
    destruct (no_bounds_ s) eqn:Enb.
    + intros H; injection H as <-. right; left.
      split; [reflexivity|]. now rewrite set_check_checked.
    + intros H. right; right. split; [reflexivity|].
      split; [rewrite Hc; discriminate|].
      revert H. unfold bind at 1.
      rewrite (set_check_checked s Hc).
      destruct (mode_transition c it s) as [[[] s1]|]; [|discriminate].
      intros H. now exists s1.
  - simpl. intros H; injection H as <-. now left.
  - simpl. destruct (no_bounds_ s) eqn:Enb.
    + intros H; injection H as <-. right; left. now split.
    + intros H. right; right. split; [reflexivity|]. split.
      * intros _. clear H. revert E0.
        unfold check_no_bounds, bind, gets, call, modify, ret, lift.
        rewrite Hc. cbn [negb].
        destruct (n_bounds it) as [n|]; [|discriminate].
        destruct (Z.eqb_spec n 0) as [->|Hn].
        -- intros H. exfalso. injection H. intros. congruence.
        -- intros _. now exists n.
      * revert H. unfold bind at 1.
        destruct (mode_transition c it (set_check_if_no_bounds true s))
          as [[[] s1]|]; [|discriminate].
        intros H. now exists s1.
Qed.

(** ** What the blocks keep *)

Lemma Remember_keeps (c : Config) (it : Iterate) (s s' : State) :
  RememberCurrentPointAsAccepted c it s = Ok (tt, s') ->
  check_if_no_bounds_ s' = check_if_no_bounds_ s /\
  no_bounds_ s' = no_bounds_ s /\
  FreeMuMode s' = FreeMuMode s /\
  curr_mu s' = curr_mu s /\ curr_tau s' = curr_tau s /\
  info_string s' = info_string s /\ trace s' = trace s.
Proof.
  intros H. destruct (Remember_frame _ _ _ _ H) as (refs & fl & ->).
  repeat split.
Qed.

Lemma lower_mu_safeguard_keeps (c : Config) (it : Iterate) (s s' : State)
    (v : Number) :
  lower_mu_safeguard c it s = Ok (v, s') ->
  refs_vals_ s' = refs_vals_ s /\
  check_if_no_bounds_ s' = check_if_no_bounds_ s /\
  no_bounds_ s' = no_bounds_ s /\
  filter_ s' = filter_ s /\
  curr_mu s' = curr_mu s /\ curr_tau s' = curr_tau s /\
  FreeMuMode s' = FreeMuMode s /\
  info_string s' = info_string s /\ trace s' = trace s.
Proof.
  intros H. destruct (lower_mu_safeguard_inv _ _ _ _ _ H) as (d & p & _ & _ & ->).
  apply latch_frame.
Qed.

Lemma NewFixedMu_keeps (c : Config) (it : Iterate) (s s' : State)
    (mu : Number) :
  NewFixedMu c it s = Ok (mu, s') ->
  refs_vals_ s' = refs_vals_ s /\
  check_if_no_bounds_ s' = check_if_no_bounds_ s /\
  no_bounds_ s' = no_bounds_ s /\
  filter_ s' = filter_ s /\
  curr_mu s' = curr_mu s /\ curr_tau s' = curr_tau s /\
  FreeMuMode s' = FreeMuMode s /\
  info_string s' = info_string s /\ trace s' = trace s.
Proof.
  intros H. destruct (NewFixedMu_inv _ _ _ _ _ H) as (x & d & p & _ & ->).
  apply latch_frame.
Qed.

(** The second block keeps the two flags of the test for bounds and leaves
    the mode that the check of the progress decides. *)
Lemma mode_transition_keeps (c : Config) (it : Iterate) (s s' : State) :
  mode_transition c it s = Ok (tt, s') ->
  check_if_no_bounds_ s' = check_if_no_bounds_ s /\
  no_bounds_ s' = no_bounds_ s /\
  CheckSufficientProgress c it s = Ok (FreeMuMode s').
Proof.
  intros H. destruct (mode_transition_state _ _ _ _ H) as (b & Hb & Hcase).
  rewrite Hb.
  destruct Hcase as [(-> & F & R) | [(-> & F & R) | [(-> & F & mu & s1 & N & ->)
    | [(-> & F & _ & ->) | (-> & F & _ & ->)]]]].
  - destruct (Remember_keeps _ _ _ _ R) as (K1 & K2 & K3 & _).
    rewrite K1, K2, K3, F. repeat split.
  - destruct (Remember_keeps _ _ _ _ R) as (K1 & K2 & K3 & _).
    rewrite K1, K2, K3. repeat split.
  - destruct (NewFixedMu_keeps _ _ _ _ _ N) as (_ & K1 & K2 & _ & _ & _ & K3 & _).
    simpl. rewrite K1, K2, K3. repeat split.
  - simpl. rewrite F. repeat split.
  - rewrite F. repeat split.
Qed.

(** The third block keeps the flags, the mode, the reference values and
    the filter. *)
Lemma free_mu_phase_keeps (c : Config) (it : Iterate) (s s' : State) :
  free_mu_phase c it s = Ok (tt, s') ->
  check_if_no_bounds_ s' = check_if_no_bounds_ s /\
  no_bounds_ s' = no_bounds_ s /\
  FreeMuMode s' = FreeMuMode s /\
  refs_vals_ s' = refs_vals_ s /\
  filter_ s' = filter_ s.
Proof.
  intros H.
  destruct (free_mu_phase_state _ _ _ _ H)
    as [(F & lsg & s1 & L & ->) | (F & ->)]; [|repeat split].
  destruct (lower_mu_safeguard_keeps _ _ _ _ _ L)
    as (K1 & K2 & K3 & K4 & _ & _ & K5 & _).
  destruct (Qlt_bool _ lsg); simpl; rewrite K1, K2, K3, K4, K5; repeat split.
Qed.

End Blocks.

Section CallProperties.
Context {Ext : Externals}.

(** ** The test for bounds is made once *)

(** X1: a call leaves [check_if_no_bounds_] set.  Once it is set, no call
    changes [no_bounds_], whatever the dimensions of the iterate; at the
    first call of an object that is not yet on the path without bounds,
    [no_bounds_] becomes true exactly when the four dimensions of the bound
    multipliers sum to 0. *)
Theorem bounds_are_examined_once (c : Config) (it : Iterate) (s s' : State) :
  UpdateBarrierParameter c it s = Ok (tt, s') ->
  check_if_no_bounds_ s' = true /\
  (check_if_no_bounds_ s = true -> no_bounds_ s' = no_bounds_ s) /\
  (check_if_no_bounds_ s = false -> no_bounds_ s = false ->
   (no_bounds_ s' = true <-> n_bounds it = Ok 0%Z)).
Proof.
  intros H.
  destruct (UpdateBarrierParameter_cases _ _ _ _ H)
    as [(Hc & Hn & ->) | [(Hnb & ->) | (Hnb & Hne & s1 & T & F)]].
  - simpl. split; [reflexivity|]. split; [congruence|].
    intros _ _. now split.
  - simpl. split; [reflexivity|]. split; [reflexivity|]. congruence.
  - destruct (mode_transition_keeps _ _ _ _ T) as (K1 & K2 & _).
    destruct (free_mu_phase_keeps _ _ _ _ F) as (L1 & L2 & _).
    simpl in K1, K2. rewrite L1, L2, K1, K2.
    split; [reflexivity|]. split; [reflexivity|].
    intros Hc _. destruct (Hne Hc) as (n & Hn & Hnz). rewrite Hnb, Hn.
    split; [discriminate|]. intros E. injection E as ->. contradiction.
Qed.

(** ** The mode after a call *)

Lemma mode_after_call (c : Config) (it : Iterate) (s s' : State) :
  UpdateBarrierParameter c it s = Ok (tt, s') ->
  (no_bounds_ s' = true /\ FreeMuMode s' = FreeMuMode s) \/
  (no_bounds_ s' = false /\
   CheckSufficientProgress c it s = Ok (FreeMuMode s')).
Proof.
  intros H.
  destruct (UpdateBarrierParameter_cases _ _ _ _ H)
    as [(Hc & Hn & ->) | [(Hnb & ->) | (Hnb & Hne & s1 & T & F)]].
  - left. now split.
  - left. now split.
  - right.
    destruct (mode_transition_keeps _ _ _ _ T) as (_ & K2 & K3).
    destruct (free_mu_phase_keeps _ _ _ _ F) as (_ & L2 & L3 & _).
    simpl in K2. rewrite L2, K2, L3. split; [exact Hnb | exact K3].
Qed.

(** X2: after a call on a problem with bounds the mode is the answer of
    [CheckSufficientProgress] on the state and the iterate of that call:
    free when the progress was sufficient, fixed when it was not, whatever
    the mode was before. *)
Theorem mode_follows_the_check (c : Config) (it : Iterate) (s s' : State) :
  UpdateBarrierParameter c it s = Ok (tt, s') ->
  no_bounds_ s' = false ->
  CheckSufficientProgress c it s = Ok (FreeMuMode s').
Proof.
  intros H Hnb.
  destruct (mode_after_call _ _ _ _ H) as [[E _] | [_ E]];
    [congruence | exact E].
Qed.

(** X3: with [mu_never_fix] set, a run of calls that starts in the free
    mode never leaves it. *)
Theorem mu_never_fix_stays_free (c : Config) (its : list Iterate)
    (s s' : State) :
  mu_never_fix_ c = true ->
  FreeMuMode s = true ->
  run c its s = Ok (tt, s') ->
  FreeMuMode s' = true.
Proof.
  intros Hfix. revert s.
  induction its as [|it its IH]; intros s Hfree H.
  - injection H as <-. exact Hfree.
  - simpl in H. unfold bind in H.
    destruct (UpdateBarrierParameter c it s) as [[[] s1]|] eqn:E;
      [|discriminate].
    apply (IH s1); [|exact H].
    destruct (mode_after_call _ _ _ _ E) as [[_ M] | [_ M]].
    + congruence.
    + unfold CheckSufficientProgress in M. rewrite Hfix in M.
      now injection M as <-.
Qed.

(** ** The reference values across calls *)

Lemma refs_after_call (c : Config) (it : Iterate) (s s' : State) :
  adaptive_globalization_ c = 1%Z ->
  UpdateBarrierParameter c it s = Ok (tt, s') ->
  filter_ s' = filter_ s /\
  (refs_vals_ s' = refs_vals_ s \/
   exists e,
     curr_norm_pd_system it = Ok e /\
     ((Z.of_nat (List.length (refs_vals_ s)) >= num_refs_max_ c)%Z ->
      refs_vals_ s <> []) /\
     refs_vals_ s'
     = ((if (Z.of_nat (List.length (refs_vals_ s)) >=? num_refs_max_ c)%Z
         then tl (refs_vals_ s) else refs_vals_ s) ++ [e])%list).
Proof.
  intros Hsel H.
  destruct (UpdateBarrierParameter_cases _ _ _ _ H)
    as [(Hc & Hn & ->) | [(Hnb & ->) | (Hnb & Hne & s1 & T & F)]].
  - split; [reflexivity | now left].
  - split; [reflexivity | now left].
  - destruct (free_mu_phase_keeps _ _ _ _ F) as (_ & _ & _ & L4 & L5).
    rewrite L4, L5. clear F L4 L5 H.
    assert (R : forall s0,
              filter_ s0 = filter_ s -> refs_vals_ s0 = refs_vals_ s ->
              RememberCurrentPointAsAccepted c it s0 = Ok (tt, s1) ->
              filter_ s1 = filter_ s /\
              exists e,
                curr_norm_pd_system it = Ok e /\
                ((Z.of_nat (List.length (refs_vals_ s)) >= num_refs_max_ c)%Z ->
                 refs_vals_ s <> []) /\
                refs_vals_ s1
                = ((if (Z.of_nat (List.length (refs_vals_ s))
                        >=? num_refs_max_ c)%Z
                    then tl (refs_vals_ s) else refs_vals_ s) ++ [e])%list).
    { intros s0 Hf Hr R.
      destruct (Remember_inv _ _ _ _ R)
        as [(_ & e & He & -> & Hne') | [(H2 & _) | (H1 & _)]];
        [|congruence|congruence].
      simpl. rewrite Hr in *. split; [exact Hf|]. now exists e. }
    destruct (mode_transition_state _ _ _ _ T) as (b & _ & Hcase).
    destruct Hcase as [(_ & _ & Rm) | [(_ & _ & Rm)
      | [(_ & _ & mu & s2 & N & ->) | [(_ & _ & _ & ->) | (_ & _ & _ & ->)]]]].
    + destruct (R (set_check_if_no_bounds true s) eq_refl eq_refl Rm)
        as [Hf He]. split; [exact Hf | now right].
    + destruct (R (emit (SetFreeMuMode true) (set_check_if_no_bounds true s))
                  eq_refl eq_refl Rm) as [Hf He].
      split; [exact Hf | now right].
    + destruct (NewFixedMu_keeps _ _ _ _ _ N) as (K1 & _ & _ & K4 & _).
      simpl. rewrite K1, K4. split; [reflexivity | now left].
    + split; [reflexivity | now left].
    + split; [reflexivity | now left].
Qed.

(** X4: under selector 1 with [num_refs_max >= 1], a run of calls of
    [UpdateBarrierParameter] keeps the number of reference values within
    [num_refs_max], and never touches the filter. *)
Theorem reference_values_stay_bounded (c : Config) (its : list Iterate)
    (s s' : State) :
  adaptive_globalization_ c = 1%Z ->
  (1 <= num_refs_max_ c)%Z ->
  (Z.of_nat (List.length (refs_vals_ s)) <= num_refs_max_ c)%Z ->
  run c its s = Ok (tt, s') ->
  (Z.of_nat (List.length (refs_vals_ s')) <= num_refs_max_ c)%Z /\
  filter_ s' = filter_ s.
Proof.
  intros Hsel Hmax. revert s.
  induction its as [|it its IH]; intros s Hlen H.
  - injection H as <-. now split.
  - simpl in H. unfold bind in H.
    destruct (UpdateBarrierParameter c it s) as [[[] s1]|] eqn:E;
      [|discriminate].
    destruct (refs_after_call c it s s1 Hsel E) as [Hf Hr].
    destruct (IH s1) as [IH1 IH2]; [|exact H|].
    + destruct Hr as [->|(e & _ & Hne & ->)]; [exact Hlen|].
      rewrite length_app. simpl.
      destruct (Z.geb_spec (Z.of_nat (List.length (refs_vals_ s)))
                  (num_refs_max_ c)) as [G|G].
      * assert (Hne' := Hne ltac:(lia)).
        destruct (refs_vals_ s); [contradiction|]. simpl in *. lia.
      * lia.
    + split; [exact IH1 | congruence].
Qed.

(** X5: the capacity 0, which [InitializeImpl] accepts, makes the first
    call on a problem with bounds read an empty list: in the free mode with
    no reference value yet, the call has no defined result. *)
Theorem zero_capacity_call_is_undefined (c : Config) (it : Iterate)
    (s : State) (e : Number) :
  adaptive_globalization_ c = 1%Z ->
  num_refs_max_ c = 0%Z ->
  refs_vals_ s = [] ->
  FreeMuMode s = true ->
  no_bounds_ s = false ->
  (check_if_no_bounds_ s = false -> n_bounds it <> Ok 0%Z) ->
  curr_norm_pd_system it = Ok e ->
  UpdateBarrierParameter c it s = Err EmptyList.
Proof.
  intros Hsel Hmax Hrefs Hfree Hnb Hbounds He.
  destruct (norm_defined_parts it e He) as (d & p & n & _ & _ & Hn).
  destruct s as [id ip refs chk nb fl mu tau free info tr].
  simpl in Hrefs, Hfree, Hnb, Hbounds. subst refs free nb.
  unfold UpdateBarrierParameter, check_no_bounds, mode_transition,
    CheckSufficientProgress, RememberCurrentPointAsAccepted, NewFixedMu,
    bind, gets, call, modify, ret, lift.
  simpl. rewrite Hn, Hsel, Hmax, He.
  destruct chk; simpl.
  - destruct (mu_never_fix_ c); reflexivity.
  - destruct (Z.eqb_spec n 0) as [->|Hnz];
      [exfalso; now apply Hbounds|].
    simpl. destruct (mu_never_fix_ c); reflexivity.
Qed.

(** ** The fixed mode *)

(** X6: in the fixed mode with insufficient progress, while the error of
    the barrier problem is above [kappa_epsilon * mu], a call holds the
    barrier parameter: it changes neither [mu] nor [tau] nor the mode nor
    the reference values, signals no reset, and appends the tag "F". *)
Theorem fixed_mode_holds_mu (c : Config) (it : Iterate) (s : State) :
  check_if_no_bounds_ s = true ->
  no_bounds_ s = false ->
  FreeMuMode s = false ->
  CheckSufficientProgress c it s = Ok false ->
  ~ curr_barrier_error it <= kappa_epsilon_ c * curr_mu s ->
  exists s' : State,
    UpdateBarrierParameter c it s = Ok (tt, s') /\
    curr_mu s' = curr_mu s /\ curr_tau s' = curr_tau s /\
    FreeMuMode s' = false /\
    refs_vals_ s' = refs_vals_ s /\ filter_ s' = filter_ s /\
    info_string s' = (info_string s ++ "F")%string /\
    call_events s s' = [Append_info_string "F"].
Proof.
  intros Hchk Hnb Hfree Hcheck Herr.
  unfold UpdateBarrierParameter, check_no_bounds, mode_transition,
    free_mu_phase, bind, gets, call, modify, ret, lift.
  rewrite Hchk. cbn [negb]. rewrite Hnb, Hfree. cbn [negb].
  rewrite Hcheck.
  destruct (Qle_bool_spec (curr_barrier_error it)
              (kappa_epsilon_ c * curr_mu s)); [contradiction|].
  rewrite Hfree. eexists. split; [reflexivity|]. simpl.
  repeat split; try exact Hfree.
  unfold call_events. simpl. apply skipn_length_app.
Qed.

(** X7: in the fixed mode with insufficient progress, once the error of
    the barrier problem is within [kappa_epsilon * mu], a call reduces the
    barrier parameter: with [0 < kappa_mu < 1] and a [mu] above
    [epsilon_tol / 10] it commits a strictly smaller value that is still at
    least [epsilon_tol / 10] and at most the larger of [kappa_mu * mu] and
    [epsilon_tol / 10]; it resets the line search and stays in the fixed
    mode. *)
Theorem fixed_mode_reduces_mu (c : Config) (it : Iterate) (s : State) :
  check_if_no_bounds_ s = true ->
  no_bounds_ s = false ->
  FreeMuMode s = false ->
  CheckSufficientProgress c it s = Ok false ->
  curr_barrier_error it <= kappa_epsilon_ c * curr_mu s ->
  0 < kappa_mu_ c -> kappa_mu_ c < 1 ->
  0 < curr_mu s ->
  epsilon_tol it / 10 < curr_mu s ->
  exists s' : State,
    UpdateBarrierParameter c it s = Ok (tt, s') /\
    curr_mu s' < curr_mu s /\
    epsilon_tol it / 10 <= curr_mu s' /\
    curr_mu s' <= Max (kappa_mu_ c * curr_mu s) (epsilon_tol it / 10) /\
    FreeMuMode s' = false /\
    refs_vals_ s' = refs_vals_ s /\
    existsb is_Reset (call_events s s') = true.
Proof.
  intros Hchk Hnb Hfree Hcheck Herr Hk0 Hk1 Hmu Heps.
  unfold UpdateBarrierParameter, check_no_bounds, mode_transition,
    free_mu_phase, bind, gets, call, modify, ret, lift.
  rewrite Hchk. cbn [negb]. rewrite Hnb, Hfree. cbn [negb].
  rewrite Hcheck.
  destruct (Qle_bool_spec (curr_barrier_error it)
              (kappa_epsilon_ c * curr_mu s)); [|contradiction].
  simpl. rewrite Hfree. eexists. split; [reflexivity|]. simpl.
  assert (Hscaled : kappa_mu_ c * curr_mu s < curr_mu s) by nra.
  pose proof (Min_le_l (kappa_mu_ c * curr_mu s)
                (pow (curr_mu s) (theta_mu_ c))) as Hmin.
  split; [|split; [|split; [|split; [|split]]]].
  - unfold Max at 1.
    destruct (Qlt_bool_spec (epsilon_tol it / 10)
                (Min (kappa_mu_ c * curr_mu s)
                   (pow (curr_mu s) (theta_mu_ c)))); lra.
  - apply Max_ge_r.
  - apply Max_lub; [|apply Max_ge_r].
    pose proof (Max_ge_l (kappa_mu_ c * curr_mu s) (epsilon_tol it / 10)).
    lra.
  - reflexivity.
  - reflexivity.
  - unfold call_events. simpl. repeat rewrite <- app_assoc.
    rewrite skipn_length_app. reflexivity.
Qed.

(** ** One commit per call *)

Ltac call_paths H :=
  let Hs := fresh "Hshape" in
  let Ht := fresh "Htrace" in
  let evs := fresh "evs" in
  let E := fresh "Eevs" in
  destruct (UpdateBarrierParameter_events _ _ _ _ H) as [Hs Ht];
  remember (call_events _ _) as evs eqn:E; clear E Ht;
  inversion Hs as [Hchk Hnb | Hnb | evs1 evs2 free Htr Hfree]; subst;
  [ | | inversion Htr as [F C | x F C | F C | F C Hle | F C Hgt]; subst;
        inversion Hfree as [tag mu' [Htag|Htag] Hmu' | ]; subst ].

(** X8: a call commits at most one pair [(mu, tau)] and signals at most
    one reset; it signals a reset only in a call that commits a pair. *)
Theorem at_most_one_commit (c : Config) (it : Iterate) (s s' : State) :
  UpdateBarrierParameter c it s = Ok (tt, s') ->
  (List.length (commits (call_events s s')) <= 1)%nat /\
  (List.length (filter is_commit (call_events s s')) <= 2)%nat /\
  (List.length (filter is_Reset (call_events s s')) <= 1)%nat /\
  (existsb is_Reset (call_events s s') = true ->
   exists mu tau, commits (call_events s s') = [(mu, tau)]).
Proof.
  intros H. call_paths H; simpl;
    repeat split; try lia; try discriminate; intros _; eauto.
Qed.

End CallProperties.

Section FunctionProperties.
Context {Ext : Externals}.

(** ** [Compute_tau] *)

(** X9: [Compute_tau] never returns less than [tau_min]; it stays within
    [tau_max] when [tau_min <= tau_max] (a relation that [InitializeImpl]
    does not check), and it does not increase when [mu] grows. *)
Theorem Compute_tau_range (c : Config) (mu : Number) :
  tau_min_ c <= Compute_tau c mu /\
  (tau_min_ c <= tau_max_ c -> Compute_tau c mu <= tau_max_ c) /\
  (forall mu', mu <= mu' -> Compute_tau c mu' <= Compute_tau c mu).
Proof.
  unfold Compute_tau. split; [|split].
  - apply Max_ge_l.
  - intros H. apply Max_lub; [exact H | apply Min_le_r].
  - intros mu' H. maxmin.
Qed.

(** X10: when [tau_max] is not above [tau_min], as with the default
    [tau_max = tau_min], [Compute_tau] is [tau_min] whatever [mu] is. *)
Theorem Compute_tau_is_tau_min (c : Config) (mu : Number) :
  tau_max_ c <= tau_min_ c ->
  Compute_tau c mu == tau_min_ c.
Proof.
  intros H. unfold Compute_tau. maxmin.
Qed.

(** ** [min_ref_val] and [max_ref_val] *)

(** X11: on the empty list both functions read past the end; on a
    non-empty list they return stored values, the smallest and the largest
    one. *)
Theorem reference_extremes (refs : list Number) :
  (refs = [] ->
   min_ref_val refs = Err EmptyList /\ max_ref_val refs = Err EmptyList) /\
  (refs <> [] ->
   exists lo hi,
     min_ref_val refs = Ok lo /\ max_ref_val refs = Ok hi /\
     In lo refs /\ In hi refs /\
     forall r, In r refs -> lo <= r /\ r <= hi).
Proof.
  split.
  - intros ->. split; reflexivity.
  - intros Hne. destruct refs as [|first rest]; [contradiction|].
    destruct (min_ref_val (first :: rest)) as [lo|] eqn:El; [|discriminate].
    destruct (max_ref_val (first :: rest)) as [hi|] eqn:Eh; [|discriminate].
    destruct (min_ref_val_is_minimum _ _ El) as [Il Hl].
    destruct (max_ref_val_is_maximum _ _ Eh) as [Ih Hh].
    exists lo, hi. repeat split; auto.
Qed.

(** ** [CheckSufficientProgress] *)

(** X12: under selector 1 with a full, non-empty history and a non-negative
    reduction factor, the test against any one reference value is the test
    against the largest: the progress is sufficient iff the current norm is
    at most [refs_red_fact * max_ref_val()]. *)
Theorem sufficient_progress_against_largest (c : Config) (it : Iterate)
    (s : State) (e hi : Number) :
  mu_never_fix_ c = false ->
  adaptive_globalization_ c = 1%Z ->
  (num_refs_max_ c <= Z.of_nat (List.length (refs_vals_ s)))%Z ->
  max_ref_val (refs_vals_ s) = Ok hi ->
  0 <= refs_red_fact_ c ->
  curr_norm_pd_system it = Ok e ->
  exists b : bool,
    CheckSufficientProgress c it s = Ok b /\
    (b = true <-> e <= refs_red_fact_ c * hi).
Proof.
  intros Hfix Hsel Hlen Hhi Hred He.
  unfold CheckSufficientProgress. rewrite Hfix, Hsel. simpl.
  destruct (Z.geb_spec (Z.of_nat (List.length (refs_vals_ s)))
              (num_refs_max_ c)); [|lia].
  rewrite He. simpl. eexists. split; [reflexivity|].
  rewrite refs_loop_existsb. simpl. rewrite existsb_exists.
  destruct (max_ref_val_is_maximum _ _ Hhi) as [Hin Hall].
  split.
  - intros (r & Hr & Hle). apply Qle_bool_iff in Hle.
    specialize (Hall r Hr). nra.
  - intros Hle. exists hi. split; [exact Hin|]. now apply Qle_bool_iff.
Qed.

(** ** [lower_mu_safeguard] *)

(** X13: under selector 1 the safeguard is at most every stored reference
    value; and [lower_mu_safeguard] commits nothing: it leaves the
    reference values, the barrier parameter, the mode and the trace as
    they are. *)
Theorem safeguard_is_capped_by_references (c : Config) (it : Iterate)
    (s s' : State) (v : Number) :
  lower_mu_safeguard c it s = Ok (v, s') ->
  (adaptive_globalization_ c = 1%Z ->
   forall r, In r (refs_vals_ s) -> v <= r) /\
  refs_vals_ s' = refs_vals_ s /\ curr_mu s' = curr_mu s /\
  curr_tau s' = curr_tau s /\ FreeMuMode s' = FreeMuMode s /\
  trace s' = trace s.
Proof.
  intros H.
  destruct (lower_mu_safeguard_keeps _ _ _ _ _ H)
    as (K1 & _ & _ & _ & K2 & K3 & K4 & _ & K5).
  split; [|repeat split; assumption].
  intros Hsel r Hr. revert H.
  rewrite lower_mu_safeguard_unfold. unfold bindR.
  destruct (avrg_dual_inf it) as [d|]; [|discriminate].
  destruct (avrg_primal_inf it) as [p|]; [|discriminate].
  destruct (uncapped_safeguard c d p (latch d p s)) as [u|]; [|discriminate].
  rewrite Hsel. simpl.
  destruct (min_ref_val (refs_vals_ s)) as [m|] eqn:Em; [|discriminate].
  intros H; injection H as <- _.
  destruct (min_ref_val_is_minimum _ _ Em) as [_ Hall].
  pose proof (Min_le_r u m). specialize (Hall r Hr). lra.
Qed.

Lemma safeguard_not_positive (c : Config) (it : Iterate) (s s' : State)
    (v : Number) :
  mu_safeguard_factor_ c == 0 ->
  lower_mu_safeguard c it s = Ok (v, s') ->
  v <= 0.
Proof.
  intros Hf. rewrite lower_mu_safeguard_unfold. unfold bindR.
  destruct (avrg_dual_inf it) as [d|]; [|discriminate].
  destruct (avrg_primal_inf it) as [p|]; [|discriminate].
  unfold uncapped_safeguard, bindR.
  destruct (Number_quot d _) as [qd|]; [|discriminate].
  destruct (Number_quot p _) as [qp|]; [|discriminate].
  assert (Hu : Max (mu_safeguard_factor_ c * qd)
                 (mu_safeguard_factor_ c * qp) <= 0).
  { apply Max_lub; rewrite Hf; lra. }
  destruct (adaptive_globalization_ c =? 1)%Z.
  - destruct (min_ref_val (refs_vals_ s)) as [m|]; [|discriminate].
    intros H; injection H as <- _.
    pose proof (Min_le_l (Max (mu_safeguard_factor_ c * qd)
                            (mu_safeguard_factor_ c * qp)) m). lra.
  - intros H; injection H as <- _. exact Hu.
Qed.

(** X14: with the default [mu_safeguard_factor = 0] and a positive
    [mu_min], the safeguard never raises the barrier parameter: no call
    appends the tag "m". *)
Theorem no_safeguard_tag_by_default (c : Config) (it : Iterate)
    (s s' : State) :
  mu_safeguard_factor_ c == 0 ->
  0 < mu_min_ c ->
  UpdateBarrierParameter c it s = Ok (tt, s') ->
  ~ In (Append_info_string "m") (call_events s s').
Proof.
  intros Hf Hmin H.
  destruct (UpdateBarrierParameter_cases _ _ _ _ H)
    as [(Hc & Hn & ->) | [(Hnb & ->) | (Hnb & Hne & s1 & T & F)]].
  - unfold call_events, no_bounds_state. simpl. rewrite <- app_assoc.
    rewrite skipn_length_app. simpl. intros [E|[E|[]]]; discriminate.
  - unfold call_events. simpl.
    rewrite <- (app_nil_r (trace s)) at 2. rewrite skipn_length_app.
    intros [].
  - destruct (mode_transition_events _ _ _ _ T) as (evs1 & Htr & Ht1).
    simpl in Ht1.
    assert (H1 : ~ In (Append_info_string "m") evs1).
    { inversion Htr; subst; simpl; intuition discriminate. }
    destruct (free_mu_phase_state _ _ _ _ F)
      as [(Fm & lsg & s2 & L & ->) | (Fm & ->)].
    + pose proof (safeguard_not_positive c it s1 s2 lsg Hf L) as Hl.
      destruct (lower_mu_safeguard_keeps _ _ _ _ _ L) as (_&_&_&_&_&_&_&_&K).
      destruct (Qlt_bool_spec
                  (Max (free_mu_oracle_CalculateMu it) (mu_min_ c)) lsg)
        as [Hlt|_].
      { pose proof (Max_ge_r (free_mu_oracle_CalculateMu it) (mu_min_ c)).
        lra. }
      unfold call_events. simpl. rewrite K, Ht1.
      repeat rewrite <- app_assoc. rewrite skipn_length_app.
      intros Hin. apply in_app_or in Hin. destruct Hin as [Hin|Hin];
        [contradiction|]. simpl in Hin. intuition discriminate.
    + unfold call_events. simpl. rewrite Ht1.
      repeat rewrite <- app_assoc. rewrite skipn_length_app.
      intros Hin. apply in_app_or in Hin. destruct Hin as [Hin|Hin];
        [contradiction|]. simpl in Hin. intuition discriminate.
Qed.

(** ** [NewFixedMu] *)

(** X15: the value of [NewFixedMu] is at most [mu_max], and under
    selector 1 at most the larger of [mu_min] and a tenth of the largest
    reference value; the function commits nothing. *)
Theorem NewFixedMu_upper_bound (c : Config) (it : Iterate) (s s' : State)
    (mu : Number) :
  NewFixedMu c it s = Ok (mu, s') ->
  mu <= mu_max_ c /\
  (adaptive_globalization_ c = 1%Z ->
   forall hi, max_ref_val (refs_vals_ s) = Ok hi ->
   mu <= Max (0.1 * hi) (mu_min_ c)) /\
  refs_vals_ s' = refs_vals_ s /\ curr_mu s' = curr_mu s /\
  curr_tau s' = curr_tau s /\ trace s' = trace s.
Proof.
  intros H.
  destruct (NewFixedMu_keeps _ _ _ _ _ H) as (K1 & _ & _ & _ & K2 & K3 & _ & _ & K4).
  revert H. rewrite NewFixedMu_unfold. unfold bindR, fixed_mode_max_ref.
  destruct (Z.eqb_spec (adaptive_globalization_ c) 1) as [Hsel|Hsel].
  - destruct (max_ref_val (refs_vals_ s)) as [m|]; [|discriminate].
    destruct (lower_mu_safeguard c it s) as [[v s1]|]; [|discriminate].
    intros H; injection H as <- _. simpl.
    split; [apply Min_le_r|]. split; [|repeat split; assumption].
    intros _ hi Hhi. injection Hhi as <-. maxmin.
  - destruct (adaptive_globalization_ c =? 2)%Z; [|discriminate].
    destruct (lower_mu_safeguard c it s) as [[v s1]|]; [|discriminate].
    intros H; injection H as <- _.
    split; [apply Min_le_r|]. split; [|repeat split; assumption].
    intros E. contradiction.
Qed.

End FunctionProperties.

(** ** The scaled norm *)

Section NormProperties.
Context {Ext : Externals}.

Lemma average_sign (a q : Number) (n : Index) :
  (0 < n)%Z ->
  Number_div a n = Ok q ->
  (0 <= a -> 0 <= q) /\ (q == 0 <-> a == 0).
Proof.
  intros Hn. rewrite (Number_div_guarded a n Hn). intros H; injection H as <-.
  unfold Number in *.
  assert (Hpos : 0 < inject_Z n).
  { unfold Qlt. simpl. lia. }
  assert (Ha : a == a / inject_Z n * inject_Z n).
  { field. lra. }
  split.
  - intros H0. apply Qle_shift_div_l; [exact Hpos | lra].
  - split; intros H0.
    + rewrite Ha, H0. lra.
    + rewrite H0. field. lra.
Qed.

Lemma guarded_average_sign (a q : Number) (n : Index) :
  (if (0 <? n)%Z then Number_div a n else Ok a) = Ok q ->
  (0 <= a -> 0 <= q) /\ (q == 0 <-> a == 0).
Proof.
  destruct (Z.ltb_spec 0 n) as [Hn|Hn].
  - now apply average_sign.
  - intros H; injection H as <-. split; [auto | reflexivity].
Qed.

(** X16: on an iterate whose three 1-norms are non-negative and whose
    number of primal variables and slacks is not negative, the scaled norm
    of the primal-dual system is non-negative, and it is zero when the
    three norms are zero. *)
Theorem residual_norm_sign (it : Iterate) (e : Number) :
  curr_norm_pd_system it = Ok e ->
  (0 <= dim_x it + dim_s it)%Z ->
  0 <= curr_dual_infeasibility it ->
  0 <= curr_primal_infeasibility it ->
  0 <= curr_complementarity it ->
  0 <= e /\
  (curr_dual_infeasibility it == 0 ->
   curr_primal_infeasibility it == 0 ->
   curr_complementarity it == 0 ->
   e == 0).
Proof.
  unfold curr_norm_pd_system, Index_add at 1.
  destruct ((INT_MIN <=? dim_x it + dim_s it)%Z
            && (dim_x it + dim_s it <=? INT_MAX)%Z)%bool; [|discriminate].
  cbn [bindR].
  destruct (Number_div (curr_dual_infeasibility it) (dim_x it + dim_s it)%Z)
    as [d|] eqn:Ed; [|discriminate].
  cbn [bindR].
  destruct (Index_add (dim_y_c it) (dim_y_d it)) as [n_pri|]; [|discriminate].
  cbn [bindR].
  destruct (if (0 <? n_pri)%Z
            then Number_div (curr_primal_infeasibility it) n_pri
            else Ok (curr_primal_infeasibility it)) as [p|] eqn:Ep;
    [|discriminate].
  cbn [bindR].
  destruct (Index_add (dim_z_L it) (dim_z_U it)) as [n1|]; [|discriminate].
  cbn [bindR].
  destruct (Index_add n1 (dim_v_L it)) as [n2|]; [|discriminate].
  cbn [bindR].
  destruct (Index_add n2 (dim_v_U it)) as [n_comp|]; [|discriminate].
  cbn [bindR].
  destruct (if (0 <? n_comp)%Z
            then Number_div (curr_complementarity it) n_comp
            else Ok (curr_complementarity it)) as [q|] eqn:Eq;
    [|discriminate].
  cbn [bindR].
  intros H Hdim Hd Hp Hq. injection H as <-.
  assert (Hnd : (0 < dim_x it + dim_s it)%Z).
  { unfold Number_div in Ed.
    destruct (Z.eqb_spec (dim_x it + dim_s it) 0); [discriminate | lia]. }
  destruct (average_sign _ _ _ Hnd Ed) as [D1 D2].
  destruct (guarded_average_sign _ _ _ Ep) as [P1 P2].
  destruct (guarded_average_sign _ _ _ Eq) as [Q1 Q2].
  specialize (D1 Hd). specialize (P1 Hp). specialize (Q1 Hq).
  split; [lra|].
  intros H1 H2 H3.
  apply D2 in H1. apply P2 in H2. apply Q2 in H3. lra.
Qed.

End NormProperties.

(** ** [InitializeImpl] *)

Ltac option_value :=
  lazymatch goal with
  | |- bindR ?r _ = Ok _ -> _ =>
      let E := fresh "E" in
      destruct r as [?|] eqn:E; cbn [bindR]; [|discriminate]
  end.

Ltac option_absent E :=
  let Hv := fresh "Hv" in
  intros Hv; rewrite Hv in E; now injection E as <-.

Ltac raised E :=
  lazymatch type of E with
  | match ?l with Some _ => _ | None => _ end = _ =>
      let L := fresh "L" in
      destruct l eqn:L; [|discriminate E];
      unfold ASSERT_EXCEPTION in E;
      lazymatch type of E with
      | bindR (if ?b then _ else _) _ = _ =>
          destruct b; cbn [bindR] in E; [discriminate E|];
          injection E as <-; do 2 eexists; split; [reflexivity|]; eauto
      end
  end.

Ltac option_or_raise :=
  lazymatch goal with
  | |- bindR ?r _ = Err _ -> _ =>
      let E := fresh "E" in
      destruct r as [?|?] eqn:E; cbn [bindR];
      [ clear E
      | let H := fresh in intros H; injection H as <-; raised E ]
  end.

Section Initialization.
Context {Ext : Externals}.

(** X17: an exception of [InitializeImpl] is always
    [OPTION_OUT_OF_RANGE], and the option it names is one that was
    supplied. *)
Theorem InitializeImpl_raises_for_supplied_options (options : OptionsList)
    (eps_tol : Number) (free_init : bool) (fix_init : option bool)
    (self : Config * State) (e : Exception) :
  InitializeImpl options eps_tol free_init fix_init self = Err e ->
  exists name text,
    e = OPTION_OUT_OF_RANGE name text /\
    ((exists v, GetNumericValue options name = Some v) \/
     (exists v, GetIntegerValue options name = Some v)).
Proof.
  unfold InitializeImpl.
  do 8 option_or_raise. cbv zeta.
  destruct free_init; cbn [negb]; [|discriminate].
  destruct fix_init as [[|]|]; try discriminate; do 3 option_or_raise;
    discriminate.
Qed.

(** X18: what a call that returns true stores for an option that was not
    supplied: the defaults, among them [0.1 * epsilon_tol] for [mu_min],
    taken unchecked against [mu_max], and the value of [tau_min] for
    [tau_max]; and the flag [mu_never_fix] is set by any supplied integer
    other than 0. *)
Theorem InitializeImpl_defaults (options : OptionsList) (eps_tol : Number)
    (free_init : bool) (fix_init : option bool) (self : Config * State)
    (c : Config) (s : State) :
  InitializeImpl options eps_tol free_init fix_init self = Ok (true, (c, s)) ->
  (GetNumericValue options "mu_max" = None -> mu_max_ c = 1e10) /\
  (GetNumericValue options "mu_min" = None -> mu_min_ c = 0.1 * eps_tol) /\
  (GetNumericValue options "tau_min" = None -> tau_min_ c = 0.99) /\
  (GetNumericValue options "tau_max" = None -> tau_max_ c = tau_min_ c) /\
  (GetNumericValue options "mu_safeguard_exp" = None ->
   mu_safeguard_exp_ c = 0) /\
  (GetNumericValue options "mu_safeguard_factor" = None ->
   mu_safeguard_factor_ c = 0) /\
  (GetNumericValue options "nonmonotone_mu_refs_redfact" = None ->
   refs_red_fact_ c = 0.9999) /\
  (GetIntegerValue options "nonmonotone_mu_max_refs" = None ->
   num_refs_max_ c = 4%Z) /\
  (GetNumericValue options "kappa_epsilon" = None -> kappa_epsilon_ c = 10.0) /\
  (GetNumericValue options "kappa_mu" = None -> kappa_mu_ c = 0.2) /\
  (GetNumericValue options "theta_mu" = None -> theta_mu_ c = 1.5) /\
  (GetIntegerValue options "adaptive_globalization" = None ->
   adaptive_globalization_ c = 1%Z) /\
  (GetIntegerValue options "mu_never_fix" = None -> mu_never_fix_ c = false) /\
  (forall v, GetIntegerValue options "mu_never_fix" = Some v ->
     mu_never_fix_ c = negb (v =? 0)%Z).
Proof.
  unfold InitializeImpl.
  do 8 option_value. cbv zeta.
  destruct free_init; cbn [negb]; [|discriminate].
  intros H.
  assert (H' :
    (kappa_epsilon <~
       match GetNumericValue options "kappa_epsilon" with
       | Some value =>
           _ <~ ASSERT_EXCEPTION (Qlt_bool 0 value) "kappa_epsilon"
                  "This value must be larger than 0." ;;
           Ok value
       | None => Ok 10.0
       end ;;
     kappa_mu <~
       match GetNumericValue options "kappa_mu" with
       | Some value =>
           _ <~ ASSERT_EXCEPTION (Qlt_bool 0 value && Qlt_bool value 1)
                  "kappa_mu" "This value must be between 0 and 1." ;;
           Ok value
       | None => Ok 0.2
       end ;;
     theta_mu <~
       match GetNumericValue options "theta_mu" with
       | Some value =>
           _ <~ ASSERT_EXCEPTION (Qlt_bool 1 value && Qlt_bool value 2)
                  "theta_mu" "This value must be between 1 and 2." ;;
           Ok value
       | None => Ok 1.5
       end ;;
     Ok (a, a0, a1, a2, a3, a4, a5, a6, kappa_epsilon, kappa_mu, theta_mu,
         match GetIntegerValue options "adaptive_globalization" with
         | Some ivalue => ivalue
         | None => 1%Z
         end,
         match GetIntegerValue options "mu_never_fix" with
         | Some ivalue => negb (ivalue =? 0)%Z
         | None => false
         end))
    = Ok (mu_max_ c, mu_min_ c, tau_min_ c, tau_max_ c, mu_safeguard_exp_ c,
          mu_safeguard_factor_ c, refs_red_fact_ c, num_refs_max_ c,
          kappa_epsilon_ c, kappa_mu_ c, theta_mu_ c,
          adaptive_globalization_ c, mu_never_fix_ c)).
  { destruct fix_init as [[|]|]; try discriminate H; revert H;
      do 3 option_value; intros H; injection H as <- <-; reflexivity. }
  clear H. revert H'. do 3 option_value.
  intros H. injection H as <- <- <- <- <- <- <- <- <- <- <- <- <-.
  repeat apply conj;
    [ option_absent E | option_absent E0 | option_absent E1 | option_absent E2
    | option_absent E3 | option_absent E4 | option_absent E5
    | option_absent E6 | option_absent E7 | option_absent E8
    | option_absent E9
    | intros Hv; now rewrite Hv
    | intros Hv; now rewrite Hv
    | intros v Hv; now rewrite Hv ].
Qed.

Lemma InitializeImpl_state (options : OptionsList) (eps_tol : Number)
    (free_init : bool) (fix_init : option bool) (self : Config * State)
    (b : bool) (c : Config) (s : State) :
  InitializeImpl options eps_tol free_init fix_init self = Ok (b, (c, s)) ->
  (b = true /\
   free_init = true /\ fix_init <> Some false /\
   s = emit (SetFreeMuMode true)
         (Build_State (-1) (-1) [] false false (filter_ (snd self))
            (curr_mu (snd self)) (curr_tau (snd self))
            (FreeMuMode (snd self)) (info_string (snd self))
            (trace (snd self)))) \/
  (b = false /\
   (free_init = false \/ fix_init = Some false) /\
   s = snd self /\
   kappa_epsilon_ c = kappa_epsilon_ (fst self) /\
   kappa_mu_ c = kappa_mu_ (fst self) /\
   theta_mu_ c = theta_mu_ (fst self)).
Proof.
  unfold InitializeImpl.
  do 8 option_value. cbv zeta.
  destruct free_init; cbn [negb].
  - destruct fix_init as [[|]|].
    + do 3 option_value. intros H; injection H as <- <- <-.
      left. repeat split. discriminate.
    + intros H; injection H as <- <- <-. right. repeat split. now right.
    + do 3 option_value. intros H; injection H as <- <- <-.
      left. repeat split. discriminate.
  - intros H; injection H as <- <- <-. right. repeat split. now left.
Qed.

(** X19: a call that returns true resets the object: both baselines are
    unset, the list of reference values is empty, the two flags of the test
    for bounds are cleared and the free mode is switched on.  It leaves the
    filter as it was (nothing clears it), and leaves [mu], [tau] and the
    info string of the shared data alone. *)
Theorem InitializeImpl_resets (options : OptionsList) (eps_tol : Number)
    (free_init : bool) (fix_init : option bool) (self : Config * State)
    (c : Config) (s : State) :
  InitializeImpl options eps_tol free_init fix_init self = Ok (true, (c, s)) ->
  init_dual_inf_ s = -1 /\ init_primal_inf_ s = -1 /\
  refs_vals_ s = [] /\
  check_if_no_bounds_ s = false /\ no_bounds_ s = false /\
  FreeMuMode s = true /\
  filter_ s = filter_ (snd self) /\
  curr_mu s = curr_mu (snd self) /\ curr_tau s = curr_tau (snd self) /\
  info_string s = info_string (snd self) /\
  trace s = (trace (snd self) ++ [SetFreeMuMode true])%list.
Proof.
  intros H.
  destruct (InitializeImpl_state _ _ _ _ _ _ _ _ H)
    as [(_ & _ & _ & ->) | (B & _)]; [|discriminate].
  repeat split.
Qed.

(** X20: when the initialization of an oracle fails, [InitializeImpl]
    returns false before it looks at [kappa_epsilon], [kappa_mu] and
    [theta_mu] and before it resets anything: the three members and the
    whole state are as they were.  It returns true only when the free-mode
    oracle, and the fixed-mode oracle if there is one, are initialized. *)
Theorem InitializeImpl_oracle_failure (options : OptionsList)
    (eps_tol : Number) (free_init : bool) (fix_init : option bool)
    (self : Config * State) (b : bool) (c : Config) (s : State) :
  InitializeImpl options eps_tol free_init fix_init self = Ok (b, (c, s)) ->
  (b = true <-> free_init = true /\ fix_init <> Some false) /\
  (b = false ->
   s = snd self /\
   kappa_epsilon_ c = kappa_epsilon_ (fst self) /\
   kappa_mu_ c = kappa_mu_ (fst self) /\
   theta_mu_ c = theta_mu_ (fst self)).
Proof.
  intros H.
  destruct (InitializeImpl_state _ _ _ _ _ _ _ _ H)
    as [(-> & F1 & F2 & _) | (-> & F & S & K)].
  - split; [|discriminate]. now split.
  - split; [|now intros _].
    split; [discriminate|]. intros [F1 F2].
    destruct F as [F|F]; congruence.
Qed.

(** ** Runs of calls *)

Lemma run_from_ok_baselines (c : Config) (its : list Iterate) :
  (adaptive_globalization_ c = 1%Z -> (1 <= num_refs_max_ c)%Z) ->
  Forall (fun it => exists e, curr_norm_pd_system it = Ok e) its ->
  forall s, baselines_ok s ->
  exists s', run c its s = Ok (tt, s') /\ baselines_ok s'.
Proof.
  intros Hmax Hits. induction Hits as [|it its [e He] _ IH]; intros s Hok.
  - exists s. now split.
  - destruct (UpdateBarrierParameter_returns c it s e He Hmax Hok)
      as (s1 & H1 & Hok1).
    destruct (IH s1 Hok1) as (s' & H' & Hok').
    exists s'. simpl. unfold bind. rewrite H1. now split.
Qed.

(** X21: every run of calls returns, from a state whose baselines are
    unset or latched, on iterates whose scaled norm is defined (a nonzero
    number of primal variables and slacks), provided selector 1 comes with
    [num_refs_max >= 1]: no call of the run reads an empty list or an unset
    local or divides by zero; and the baselines are unset or latched
    afterwards. *)
Theorem run_returns (c : Config) (its : list Iterate) (s : State) :
  (adaptive_globalization_ c = 1%Z -> (1 <= num_refs_max_ c)%Z) ->
  Forall (fun it => exists e, curr_norm_pd_system it = Ok e) its ->
  (init_dual_inf_ s < 0 \/ 1 <= init_dual_inf_ s) ->
  (init_primal_inf_ s < 0 \/ 1 <= init_primal_inf_ s) ->
  exists s' : State,
    run c its s = Ok (tt, s') /\
    (init_dual_inf_ s' < 0 \/ 1 <= init_dual_inf_ s') /\
    (init_primal_inf_ s' < 0 \/ 1 <= init_primal_inf_ s').
Proof.
  intros Hmax Hits Hd Hp.
  exact (run_from_ok_baselines c its Hmax Hits s (conj Hd Hp)).
Qed.

(** X22: after an initialization that returns true, with a capacity of at
    least one reference value under selector 1, every run of calls of
    [UpdateBarrierParameter] on iterates whose scaled norm is defined
    returns. *)
Theorem initialized_object_runs (options : OptionsList) (eps_tol : Number)
    (free_init : bool) (fix_init : option bool) (self : Config * State)
    (c : Config) (s : State) (its : list Iterate) :
  InitializeImpl options eps_tol free_init fix_init self = Ok (true, (c, s)) ->
  (adaptive_globalization_ c = 1%Z -> (1 <= num_refs_max_ c)%Z) ->
  Forall (fun it => exists e, curr_norm_pd_system it = Ok e) its ->
  exists s' : State, run c its s = Ok (tt, s').
Proof.
  intros H Hmax Hits.
  destruct (InitializeImpl_state _ _ _ _ _ _ _ _ H)
    as [(_ & _ & _ & ->) | (B & _)]; [|discriminate].
  destruct (run_from_ok_baselines c its Hmax Hits
              (emit (SetFreeMuMode true)
                 (Build_State (-1) (-1) [] false false (filter_ (snd self))
                    (curr_mu (snd self)) (curr_tau (snd self))
                    (FreeMuMode (snd self)) (info_string (snd self))
                    (trace (snd self)))))
    as (s' & H' & _).
  - split; left; simpl; lra.
  - now exists s'.
Qed.

(** ** The option that is not used *)

(** The configuration with another [mu_safeguard_exp]. *)
Definition with_mu_safeguard_exp (v : Number) (c : Config) : Config :=
  Build_Config (mu_max_ c) (mu_min_ c) (tau_min_ c) (tau_max_ c) v
    (mu_safeguard_factor_ c) (refs_red_fact_ c) (num_refs_max_ c)
    (mu_never_fix_ c) (adaptive_globalization_ c) (kappa_epsilon_ c)
    (kappa_mu_ c) (theta_mu_ c).

(** X23: the member [mu_safeguard_exp_] is stored and never read: with any
    other value of it, every member function returns the same result and
    leaves the same state. *)
Theorem mu_safeguard_exp_is_unused (v : Number) (c : Config) (it : Iterate)
    (s : State) :
  UpdateBarrierParameter (with_mu_safeguard_exp v c) it s
  = UpdateBarrierParameter c it s /\
  CheckSufficientProgress (with_mu_safeguard_exp v c) it s
  = CheckSufficientProgress c it s /\
  RememberCurrentPointAsAccepted (with_mu_safeguard_exp v c) it s
  = RememberCurrentPointAsAccepted c it s /\
  lower_mu_safeguard (with_mu_safeguard_exp v c) it s
  = lower_mu_safeguard c it s /\
  NewFixedMu (with_mu_safeguard_exp v c) it s = NewFixedMu c it s /\
  (forall mu, Compute_tau (with_mu_safeguard_exp v c) mu = Compute_tau c mu).
Proof. repeat split. Qed.

End Initialization.

(** ** Selector 2 *)

Section FilterProperties.
Context {Ext : Externals}.

(** X25: under selector 2 a call on a problem with bounds never touches
    the reference values; it adds one entry to the filter, at
    [(f - 1e-5 * theta, theta - 1e-5 * theta)] with the iteration count,
    exactly when it ends in the free mode, and then it adds nothing else;
    unless [mu_never_fix] is set, the mode it ends in is the answer of the
    filter's [Acceptable] on the filter as the call found it. *)
Theorem filter_after_call (c : Config) (it : Iterate) (s s' : State) :
  adaptive_globalization_ c = 2%Z ->
  UpdateBarrierParameter c it s = Ok (tt, s') ->
  no_bounds_ s' = false ->
  refs_vals_ s' = refs_vals_ s /\
  (FreeMuMode s' = true ->
   filter_ s'
   = AddEntry (filter_ s)
       (curr_f it - 1e-5 * curr_constraint_violation it)
       (curr_constraint_violation it - 1e-5 * curr_constraint_violation it)
       (iter_count it)) /\
  (FreeMuMode s' = false -> filter_ s' = filter_ s) /\
  (mu_never_fix_ c = false ->
   FreeMuMode s'
   = Acceptable (filter_ s) (curr_f it) (curr_constraint_violation it)).
Proof.
  intros Hsel H Hnb'.
  assert (Hmode : mu_never_fix_ c = false ->
                  forall b, CheckSufficientProgress c it s = Ok b ->
                  b = Acceptable (filter_ s) (curr_f it)
                        (curr_constraint_violation it)).
  { intros Hfix b. unfold CheckSufficientProgress.
    rewrite Hfix, Hsel. simpl. now intros E; injection E as <-. }
  destruct (UpdateBarrierParameter_cases _ _ _ _ H)
    as [(Hc & Hn & ->) | [(Hnb & ->) | (Hnb & Hne & s1 & T & F)]].
  - discriminate Hnb'.
  - simpl in Hnb'. congruence.
  - destruct (free_mu_phase_keeps _ _ _ _ F) as (_ & _ & L3 & L4 & L5).
    rewrite L3, L4, L5. clear F L3 L4 L5 H Hnb'.
    assert (R : forall s0,
              filter_ s0 = filter_ s -> refs_vals_ s0 = refs_vals_ s ->
              RememberCurrentPointAsAccepted c it s0 = Ok (tt, s1) ->
              refs_vals_ s1 = refs_vals_ s /\
              filter_ s1
              = AddEntry (filter_ s)
                  (curr_f it - 1e-5 * curr_constraint_violation it)
                  (curr_constraint_violation it
                   - 1e-5 * curr_constraint_violation it)
                  (iter_count it)).
    { intros s0 Hf Hr R.
      destruct (Remember_inv _ _ _ _ R)
        as [(H1 & _) | [(_ & ->) | (_ & H2 & _)]]; [congruence| |congruence].
      simpl. rewrite Hf, Hr. now split. }
    destruct (mode_transition_keeps _ _ _ _ T) as (_ & _ & K).
    change (CheckSufficientProgress c it s = Ok (FreeMuMode s1)) in K.
    destruct (mode_transition_state _ _ _ _ T) as (b & Hb & Hcase).
    change (CheckSufficientProgress c it s = Ok b) in Hb.
    assert (Eb : b = FreeMuMode s1) by congruence.
    destruct Hcase as [(Hbt & _ & Rm) | [(Hbt & _ & Rm)
      | [(Hbf & _ & mu & s2 & N & E) | [(Hbf & _ & _ & E) | (Hbf & _ & _ & E)]]]].
    + destruct (R (set_check_if_no_bounds true s) eq_refl eq_refl Rm)
        as [Hr Hf].
      repeat split; auto; intros; try congruence;
        try (rewrite <- Eb; now apply Hmode).
    + destruct (R (emit (SetFreeMuMode true) (set_check_if_no_bounds true s))
                  eq_refl eq_refl Rm) as [Hr Hf].
      repeat split; auto; intros; try congruence;
        try (rewrite <- Eb; now apply Hmode).
    + destruct (NewFixedMu_keeps _ _ _ _ _ N) as (K1 & _ & _ & K4 & _).
      assert (Hr : refs_vals_ s1 = refs_vals_ s).
      { rewrite E. simpl. now rewrite K1. }
      assert (Hf : filter_ s1 = filter_ s).
      { rewrite E. simpl. now rewrite K4. }
      repeat split; auto; intros; try congruence;
        try (rewrite <- Eb; now apply Hmode).
    + assert (Hr : refs_vals_ s1 = refs_vals_ s) by now rewrite E.
      assert (Hf : filter_ s1 = filter_ s) by now rewrite E.
      repeat split; auto; intros; try congruence;
        try (rewrite <- Eb; now apply Hmode).
    + assert (Hr : refs_vals_ s1 = refs_vals_ s) by now rewrite E.
      assert (Hf : filter_ s1 = filter_ s) by now rewrite E.
      repeat split; auto; intros; try congruence;
        try (rewrite <- Eb; now apply Hmode).
Qed.

End FilterProperties.

(** ** No averaged norm divides by zero *)

Section ZeroDivisors.
Context {Ext : Externals}.



(** *** The outcome [DivisionByZero] through the two binds *)








(** *** The two averaged infeasibilities *)



(** *** The member functions *)






(** *** The baselines through a call *)





(** *** The blocks and the call *)




(** *** Runs *)






End ZeroDivisors.

(** ** Examples for the further properties *)

Ltac decide_numbers :=
  vm_compute;
  first [ reflexivity | discriminate
        | let H := fresh in intro H; apply H; reflexivity ].

Section MoreExamples.

#[local] Existing Instance example_Externals.

(** Two more calls after the first one. *)
Definition example_iterates : list Iterate :=
  [example_Iterate; example_Iterate_far; example_Iterate_close].

Definition example_after_run : State :=
  Eval vm_compute in
    match run example_Config example_iterates example_initial with
    | Ok (_, s') => s'
    | Err _ => example_initial
    end.

Lemma bounds_are_examined_once_witness :
  check_if_no_bounds_ example_after_call = true /\
  (check_if_no_bounds_ example_initial = true ->
   no_bounds_ example_after_call = no_bounds_ example_initial) /\
  (check_if_no_bounds_ example_initial = false ->
   no_bounds_ example_initial = false ->
   (no_bounds_ example_after_call = true <->
    n_bounds example_Iterate = Ok 0%Z)).
Proof.
  apply (bounds_are_examined_once example_Config example_Iterate
           example_initial example_after_call).
  vm_compute. reflexivity.
Defined.

Lemma mode_follows_the_check_witness :
  CheckSufficientProgress example_Config example_Iterate example_initial
  = Ok (FreeMuMode example_after_call).
Proof.
  apply (mode_follows_the_check example_Config example_Iterate
           example_initial example_after_call).
  - vm_compute. reflexivity.
  - reflexivity.
Defined.

(** The example configuration with [mu_never_fix] set. *)
Definition example_Config_never_fix : Config := {|
  mu_max_ := 100;
  mu_min_ := 1e-9;
  tau_min_ := 0.5;
  tau_max_ := 0.99;
  mu_safeguard_exp_ := 0;
  mu_safeguard_factor_ := 0;
  refs_red_fact_ := 0.9;
  num_refs_max_ := 2%Z;
  mu_never_fix_ := true;
  adaptive_globalization_ := 1%Z;
  kappa_epsilon_ := 10;
  kappa_mu_ := 0.2;
  theta_mu_ := 1.5
|}.

Definition example_after_free_run : State :=
  Eval vm_compute in
    match run example_Config_never_fix example_iterates example_initial with
    | Ok (_, s') => s'
    | Err _ => example_initial
    end.

Lemma mu_never_fix_stays_free_witness :
  FreeMuMode example_after_free_run = true.
Proof.
  apply (mu_never_fix_stays_free example_Config_never_fix example_iterates
           example_initial example_after_free_run).
  - reflexivity.
  - reflexivity.
  - vm_compute. reflexivity.
Defined.

Lemma reference_values_stay_bounded_witness :
  (Z.of_nat (List.length (refs_vals_ example_after_run))
   <= num_refs_max_ example_Config)%Z /\
  filter_ example_after_run = filter_ example_initial.
Proof.
  apply (reference_values_stay_bounded example_Config example_iterates
           example_initial example_after_run).
  - reflexivity.
  - vm_compute. discriminate.
  - vm_compute. discriminate.
  - vm_compute. reflexivity.
Defined.

Lemma zero_capacity_call_is_undefined_witness :
  UpdateBarrierParameter example_Config_no_refs example_Iterate
    example_initial = Err EmptyList.
Proof.
  apply (zero_capacity_call_is_undefined example_Config_no_refs
           example_Iterate example_initial example_norm).
  - reflexivity.
  - reflexivity.
  - reflexivity.
  - reflexivity.
  - reflexivity.
  - intros _. vm_compute. discriminate.
  - vm_compute. reflexivity.
Defined.

(** An iterate whose barrier problem is far from solved. *)
Definition example_Iterate_unsolved : Iterate := {|
  dim_x := 2%Z; dim_s := 0%Z;
  dim_y_c := 1%Z; dim_y_d := 0%Z;
  dim_z_L := 2%Z; dim_z_U := 0%Z;
  dim_v_L := 0%Z; dim_v_U := 0%Z;
  curr_dual_infeasibility := 6;
  curr_primal_infeasibility := 2;
  curr_complementarity := 0.2;
  curr_f := 1;
  curr_constraint_violation := 2;
  curr_barrier_error := 20;
  curr_avrg_compl := 1;
  epsilon_tol := 1e-8;
  iter_count := 3%Z;
  free_mu_oracle_CalculateMu := 0.05;
  fix_mu_oracle_CalculateMu := None
|}.

Lemma fixed_mode_holds_mu_witness :
  exists s' : State,
    UpdateBarrierParameter example_Config example_Iterate_unsolved
      example_fixed = Ok (tt, s') /\
    curr_mu s' = curr_mu example_fixed /\
    curr_tau s' = curr_tau example_fixed /\
    FreeMuMode s' = false /\
    refs_vals_ s' = refs_vals_ example_fixed /\
    filter_ s' = filter_ example_fixed /\
    info_string s' = (info_string example_fixed ++ "F")%string /\
    call_events example_fixed s' = [Append_info_string "F"].
Proof.
  apply (fixed_mode_holds_mu example_Config example_Iterate_unsolved
           example_fixed).
  - reflexivity.
  - reflexivity.
  - reflexivity.
  - vm_compute. reflexivity.
  - decide_numbers.
Defined.

Lemma fixed_mode_reduces_mu_witness :
  exists s' : State,
    UpdateBarrierParameter example_Config example_Iterate example_fixed
    = Ok (tt, s') /\
    curr_mu s' < curr_mu example_fixed /\
    epsilon_tol example_Iterate / 10 <= curr_mu s' /\
    curr_mu s'
    <= Max (kappa_mu_ example_Config * curr_mu example_fixed)
         (epsilon_tol example_Iterate / 10) /\
    FreeMuMode s' = false /\
    refs_vals_ s' = refs_vals_ example_fixed /\
    existsb is_Reset (call_events example_fixed s') = true.
Proof.
  apply (fixed_mode_reduces_mu example_Config example_Iterate example_fixed).
  - reflexivity.
  - reflexivity.
  - reflexivity.
  - vm_compute. reflexivity.
  - decide_numbers.
  - decide_numbers.
  - decide_numbers.
  - decide_numbers.
  - decide_numbers.
Defined.

Lemma at_most_one_commit_witness :
  (List.length (commits (call_events example_initial example_after_call))
   <= 1)%nat /\
  (List.length (filter is_commit
                  (call_events example_initial example_after_call))
   <= 2)%nat /\
  (List.length (filter is_Reset
                  (call_events example_initial example_after_call))
   <= 1)%nat /\
  (existsb is_Reset (call_events example_initial example_after_call) = true ->
   exists mu tau,
     commits (call_events example_initial example_after_call) = [(mu, tau)]).
Proof.
  apply (at_most_one_commit example_Config example_Iterate example_initial
           example_after_call).
  vm_compute. reflexivity.
Defined.

(** The configuration of the defaults, for a tolerance of 1e-8. *)
Definition no_options : OptionsList := {|
  GetNumericValue := fun _ => None;
  GetIntegerValue := fun _ => None
|}.

Definition example_initialized : bool * (Config * State) :=
  Eval vm_compute in
    match InitializeImpl no_options 1e-8 true None
            (example_Config, example_after_call) with
    | Ok r => r
    | Err _ => (false, (example_Config, example_after_call))
    end.

Definition example_Config_default : Config :=
  Eval vm_compute in fst (snd example_initialized).

Definition example_State_default : State :=
  Eval vm_compute in snd (snd example_initialized).

Lemma Compute_tau_is_tau_min_witness :
  Compute_tau example_Config_default 0.3 == tau_min_ example_Config_default.
Proof.
  apply (Compute_tau_is_tau_min example_Config_default 0.3).
  decide_numbers.
Defined.

Lemma sufficient_progress_against_largest_witness :
  exists b : bool,
    CheckSufficientProgress example_Config example_Iterate_close
      example_full_history = Ok b /\
    (b = true <->
     example_norm_close <= refs_red_fact_ example_Config * 0.50).
Proof.
  apply (sufficient_progress_against_largest example_Config
           example_Iterate_close example_full_history example_norm_close
           0.50).
  - reflexivity.
  - reflexivity.
  - vm_compute. discriminate.
  - reflexivity.
  - decide_numbers.
  - vm_compute. reflexivity.
Defined.

Lemma safeguard_is_capped_by_references_witness :
  (adaptive_globalization_ example_Config = 1%Z ->
   forall r, In r (refs_vals_ example_full_history) ->
             example_safeguard <= r) /\
  refs_vals_ example_full_history = refs_vals_ example_full_history /\
  curr_mu example_full_history = curr_mu example_full_history /\
  curr_tau example_full_history = curr_tau example_full_history /\
  FreeMuMode example_full_history = FreeMuMode example_full_history /\
  trace example_full_history = trace example_full_history.
Proof.
  apply (safeguard_is_capped_by_references example_Config example_Iterate
           example_full_history example_full_history example_safeguard).
  vm_compute. reflexivity.
Defined.

Lemma no_safeguard_tag_by_default_witness :
  ~ In (Append_info_string "m")
      (call_events example_initial example_after_call).
Proof.
  apply (no_safeguard_tag_by_default example_Config example_Iterate
           example_initial example_after_call).
  - decide_numbers.
  - decide_numbers.
  - vm_compute. reflexivity.
Defined.

Definition example_fixed_mu : Number :=
  Eval vm_compute in
    match NewFixedMu example_Config example_Iterate example_full_history with
    | Ok (mu, _) => mu
    | Err _ => 0
    end.

Lemma NewFixedMu_upper_bound_witness :
  example_fixed_mu <= mu_max_ example_Config /\
  (adaptive_globalization_ example_Config = 1%Z ->
   forall hi, max_ref_val (refs_vals_ example_full_history) = Ok hi ->
   example_fixed_mu <= Max (0.1 * hi) (mu_min_ example_Config)) /\
  refs_vals_ example_full_history = refs_vals_ example_full_history /\
  curr_mu example_full_history = curr_mu example_full_history /\
  curr_tau example_full_history = curr_tau example_full_history /\
  trace example_full_history = trace example_full_history.
Proof.
  apply (NewFixedMu_upper_bound example_Config example_Iterate
           example_full_history example_full_history example_fixed_mu).
  vm_compute. reflexivity.
Defined.

Lemma residual_norm_sign_witness :
  0 <= example_norm /\
  (curr_dual_infeasibility example_Iterate == 0 ->
   curr_primal_infeasibility example_Iterate == 0 ->
   curr_complementarity example_Iterate == 0 ->
   example_norm == 0).
Proof.
  apply (residual_norm_sign example_Iterate example_norm).
  - vm_compute. reflexivity.
  - vm_compute. discriminate.
  - decide_numbers.
  - decide_numbers.
  - decide_numbers.
Defined.

(** Options with a negative [mu_max]. *)
Definition options_negative_mu_max : OptionsList := {|
  GetNumericValue := fun name =>
    if String.eqb name "mu_max" then Some (-1) else None;
  GetIntegerValue := fun _ => None
|}.

Lemma InitializeImpl_raises_for_supplied_options_witness :
  exists name text,
    OPTION_OUT_OF_RANGE "mu_max" "This value must be larger than 0."
    = OPTION_OUT_OF_RANGE name text /\
    ((exists v, GetNumericValue options_negative_mu_max name = Some v) \/
     (exists v, GetIntegerValue options_negative_mu_max name = Some v)).
Proof.
  apply (InitializeImpl_raises_for_supplied_options options_negative_mu_max
           1e-8 true None (example_Config, example_after_call)).
  vm_compute. reflexivity.
Defined.

Lemma example_initialization :
  InitializeImpl no_options 1e-8 true None (example_Config, example_after_call)
  = Ok (true, (example_Config_default, example_State_default)).
Proof. vm_compute. reflexivity. Qed.

Lemma InitializeImpl_defaults_witness :
  (GetNumericValue no_options "mu_max" = None ->
   mu_max_ example_Config_default = 1e10) /\
  (GetNumericValue no_options "mu_min" = None ->
   mu_min_ example_Config_default = 0.1 * 1e-8) /\
  (GetNumericValue no_options "tau_min" = None ->
   tau_min_ example_Config_default = 0.99) /\
  (GetNumericValue no_options "tau_max" = None ->
   tau_max_ example_Config_default = tau_min_ example_Config_default) /\
  (GetNumericValue no_options "mu_safeguard_exp" = None ->
   mu_safeguard_exp_ example_Config_default = 0) /\
  (GetNumericValue no_options "mu_safeguard_factor" = None ->
   mu_safeguard_factor_ example_Config_default = 0) /\
  (GetNumericValue no_options "nonmonotone_mu_refs_redfact" = None ->
   refs_red_fact_ example_Config_default = 0.9999) /\
  (GetIntegerValue no_options "nonmonotone_mu_max_refs" = None ->
   num_refs_max_ example_Config_default = 4%Z) /\
  (GetNumericValue no_options "kappa_epsilon" = None ->
   kappa_epsilon_ example_Config_default = 10.0) /\
  (GetNumericValue no_options "kappa_mu" = None ->
   kappa_mu_ example_Config_default = 0.2) /\
  (GetNumericValue no_options "theta_mu" = None ->
   theta_mu_ example_Config_default = 1.5) /\
  (GetIntegerValue no_options "adaptive_globalization" = None ->
   adaptive_globalization_ example_Config_default = 1%Z) /\
  (GetIntegerValue no_options "mu_never_fix" = None ->
   mu_never_fix_ example_Config_default = false) /\
  (forall v, GetIntegerValue no_options "mu_never_fix" = Some v ->
     mu_never_fix_ example_Config_default = negb (v =? 0)%Z).
Proof.
  apply (InitializeImpl_defaults no_options 1e-8 true None
           (example_Config, example_after_call) example_Config_default
           example_State_default).
  vm_compute. reflexivity.
Defined.

Lemma InitializeImpl_resets_witness :
  init_dual_inf_ example_State_default = -1 /\
  init_primal_inf_ example_State_default = -1 /\
  refs_vals_ example_State_default = [] /\
  check_if_no_bounds_ example_State_default = false /\
  no_bounds_ example_State_default = false /\
  FreeMuMode example_State_default = true /\
  filter_ example_State_default
  = filter_ (snd (example_Config, example_after_call)) /\
  curr_mu example_State_default
  = curr_mu (snd (example_Config, example_after_call)) /\
  curr_tau example_State_default
  = curr_tau (snd (example_Config, example_after_call)) /\
  info_string example_State_default
  = info_string (snd (example_Config, example_after_call)) /\
  trace example_State_default
  = (trace (snd (example_Config, example_after_call))
     ++ [SetFreeMuMode true])%list.
Proof.
  apply (InitializeImpl_resets no_options 1e-8 true None
           (example_Config, example_after_call) example_Config_default
           example_State_default).
  vm_compute. reflexivity.
Defined.

(** Options with a [kappa_epsilon] out of its range. *)
Definition options_negative_kappa_epsilon : OptionsList := {|
  GetNumericValue := fun name =>
    if String.eqb name "kappa_epsilon" then Some (-1) else None;
  GetIntegerValue := fun _ => None
|}.

Definition example_not_initialized : bool * (Config * State) :=
  Eval vm_compute in
    match InitializeImpl options_negative_kappa_epsilon 1e-8 false None
            (example_Config, example_after_call) with
    | Ok r => r
    | Err _ => (true, (example_Config, example_after_call))
    end.

Lemma InitializeImpl_oracle_failure_witness :
  (fst example_not_initialized = true <->
   false = true /\ @None bool <> Some false) /\
  (fst example_not_initialized = false ->
   snd (snd example_not_initialized)
   = snd (example_Config, example_after_call) /\
   kappa_epsilon_ (fst (snd example_not_initialized))
   = kappa_epsilon_ (fst (example_Config, example_after_call)) /\
   kappa_mu_ (fst (snd example_not_initialized))
   = kappa_mu_ (fst (example_Config, example_after_call)) /\
   theta_mu_ (fst (snd example_not_initialized))
   = theta_mu_ (fst (example_Config, example_after_call))).
Proof.
  apply (InitializeImpl_oracle_failure options_negative_kappa_epsilon 1e-8
           false None (example_Config, example_after_call)
           (fst example_not_initialized)
           (fst (snd example_not_initialized))
           (snd (snd example_not_initialized))).
  vm_compute. reflexivity.
Defined.

Lemma example_norms_defined :
  Forall (fun it => exists e, curr_norm_pd_system it = Ok e) example_iterates.
Proof.
  repeat constructor; eexists; vm_compute; reflexivity.
Qed.

Lemma run_returns_witness :
  exists s' : State,
    run example_Config example_iterates example_initial = Ok (tt, s') /\
    (init_dual_inf_ s' < 0 \/ 1 <= init_dual_inf_ s') /\
    (init_primal_inf_ s' < 0 \/ 1 <= init_primal_inf_ s').
Proof.
  apply (run_returns example_Config example_iterates example_initial).
  - intros _. vm_compute. discriminate.
  - repeat constructor; eexists; vm_compute; reflexivity.
  - left. decide_numbers.
  - left. decide_numbers.
Defined.

Lemma initialized_object_runs_witness :
  exists s' : State,
    run example_Config_default example_iterates example_State_default
    = Ok (tt, s').
Proof.
  apply (initialized_object_runs no_options 1e-8 true None
           (example_Config, example_after_call) example_Config_default
           example_State_default example_iterates).
  - vm_compute. reflexivity.
  - intros _. vm_compute. discriminate.
  - repeat constructor; eexists; vm_compute; reflexivity.
Defined.

(** Options that supply a few values within their ranges. *)
Definition options_supplied : OptionsList := {|
  GetNumericValue := fun name =>
    if String.eqb name "mu_max" then Some 100
    else if String.eqb name "mu_min" then Some 1e-9
    else if String.eqb name "tau_min" then Some 0.5
    else if String.eqb name "tau_max" then Some 0.99
    else if String.eqb name "kappa_mu" then Some 0.2
    else None;
  GetIntegerValue := fun name =>
    if String.eqb name "nonmonotone_mu_max_refs" then Some 2%Z
    else if String.eqb name "adaptive_globalization" then Some 2%Z
    else None
|}.

Definition example_supplied : Config * State :=
  Eval vm_compute in
    match InitializeImpl options_supplied 1e-8 true (Some true)
            (example_Config, example_after_call) with
    | Ok (_, r) => r
    | Err _ => (example_Config, example_after_call)
    end.

Definition example_Config_supplied : Config :=
  Eval vm_compute in fst example_supplied.

Lemma InitializeImpl_checks_ranges_witness :
  (forall v, GetNumericValue options_supplied "mu_max" = Some v ->
     0 < v /\ mu_max_ example_Config_supplied = v) /\
  (forall v, GetNumericValue options_supplied "mu_min" = Some v ->
     0 < v /\ v < mu_max_ example_Config_supplied /\
     mu_min_ example_Config_supplied = v) /\
  (forall v, GetNumericValue options_supplied "tau_min" = Some v ->
     0 < v /\ v < 1 /\ tau_min_ example_Config_supplied = v) /\
  (forall v, GetNumericValue options_supplied "tau_max" = Some v ->
     0 < v /\ v <= 1 /\ tau_max_ example_Config_supplied = v) /\
  (forall v, GetNumericValue options_supplied "mu_safeguard_exp" = Some v ->
     0 <= v /\ mu_safeguard_exp_ example_Config_supplied = v) /\
  (forall v, GetNumericValue options_supplied "mu_safeguard_factor" = Some v ->
     0 <= v /\ mu_safeguard_factor_ example_Config_supplied = v) /\
  (forall v,
     GetNumericValue options_supplied "nonmonotone_mu_refs_redfact" = Some v ->
     0 < v /\ v < 1 /\ refs_red_fact_ example_Config_supplied = v) /\
  (forall v,
     GetIntegerValue options_supplied "nonmonotone_mu_max_refs" = Some v ->
     (0 <= v)%Z /\ num_refs_max_ example_Config_supplied = v) /\
  (forall v, GetNumericValue options_supplied "kappa_epsilon" = Some v ->
     0 < v /\ kappa_epsilon_ example_Config_supplied = v) /\
  (forall v, GetNumericValue options_supplied "kappa_mu" = Some v ->
     0 < v /\ v < 1 /\ kappa_mu_ example_Config_supplied = v) /\
  (forall v, GetNumericValue options_supplied "theta_mu" = Some v ->
     1 < v /\ v < 2 /\ theta_mu_ example_Config_supplied = v) /\
  (forall v,
     GetIntegerValue options_supplied "adaptive_globalization" = Some v ->
     adaptive_globalization_ example_Config_supplied = v).
Proof.
  apply (InitializeImpl_checks_ranges options_supplied 1e-8 true (Some true)
           (example_Config, example_after_call) example_Config_supplied
           (snd example_supplied)).
  vm_compute. reflexivity.
Defined.

(** Selector 2 on the example configuration. *)
Definition example_Config_filter : Config := {|
  mu_max_ := 100;
  mu_min_ := 1e-9;
  tau_min_ := 0.5;
  tau_max_ := 0.99;
  mu_safeguard_exp_ := 0;
  mu_safeguard_factor_ := 0;
  refs_red_fact_ := 0.9;
  num_refs_max_ := 2%Z;
  mu_never_fix_ := false;
  adaptive_globalization_ := 2%Z;
  kappa_epsilon_ := 10;
  kappa_mu_ := 0.2;
  theta_mu_ := 1.5
|}.

Definition example_after_filter_call : State :=
  Eval vm_compute in
    match UpdateBarrierParameter example_Config_filter example_Iterate
            example_initial with
    | Ok (_, s') => s'
    | Err _ => example_initial
    end.

Lemma filter_after_call_witness :
  refs_vals_ example_after_filter_call = refs_vals_ example_initial /\
  (FreeMuMode example_after_filter_call = true ->
   filter_ example_after_filter_call
   = AddEntry (filter_ example_initial)
       (curr_f example_Iterate
        - 1e-5 * curr_constraint_violation example_Iterate)
       (curr_constraint_violation example_Iterate
        - 1e-5 * curr_constraint_violation example_Iterate)
       (iter_count example_Iterate)) /\
  (FreeMuMode example_after_filter_call = false ->
   filter_ example_after_filter_call = filter_ example_initial) /\
  (mu_never_fix_ example_Config_filter = false ->
   FreeMuMode example_after_filter_call
   = Acceptable (filter_ example_initial) (curr_f example_Iterate)
       (curr_constraint_violation example_Iterate)).
Proof.
  apply (filter_after_call example_Config_filter example_Iterate
           example_initial example_after_filter_call).
  - reflexivity.
  - vm_compute. reflexivity.
  - reflexivity.
Defined.

(** *** C7 *)


(** A problem without variables: the first call latches the path without
    bounds and every call returns. *)
Lemma example_run_without_variables :
  run example_Config
    [example_Iterate_no_variables; example_Iterate_no_variables]
    example_initial
  = Ok (tt, no_bounds_state example_Config example_initial).
Proof. vm_compute. reflexivity. Qed.

End MoreExamples.
